(** * unity-doc-mcp-server: search, pagination, sections and indexing

    A shallow embedding of the retrieval core of the server
    ([src/search/index.ts], [src/server.ts], [src/parser/index.ts],
    [src/database/schema.ts], [src/scripts/index-docs.ts]) together with
    the properties its specification states about it.

    Conventions.
    - A JavaScript string is the list of its UTF-16 code units ([jsstring]).
    - A JavaScript number that the code uses as a count or an index is an
      integer of [Z]; the FTS5 rank, a real number, is a rational of [Q].
    - Code that may throw returns a [result]. *)

From Stdlib Require Import List ZArith NArith QArith Qabs Bool Lia String Ascii.
From Stdlib Require Import DecimalString DecimalZ Sorting.Sorted.
Import ListNotations.

Set Warnings "-register-all,-notation-for-abbreviation".

Close Scope Q_scope.
Open Scope Z_scope.

(* ================================================================= *)
(** ** JavaScript strings *)

Module Js.

Local Open Scope N_scope.

(** One UTF-16 code unit. *)
Definition char := N.

Definition jsstring := list char.

(** A string literal of the source (ASCII only). *)
Definition lit (s : string) : jsstring :=
  List.map N_of_ascii (list_ascii_of_string s).

Definition char_eqb (a b : char) : bool := N.eqb a b.

Fixpoint eqb (a b : jsstring) : bool :=
  match a, b with
  | [], [] => true
  | x :: a', y :: b' => char_eqb x y && eqb a' b'
  | _, _ => false
  end.

Definition is_empty (s : jsstring) : bool :=
  match s with [] => true | _ :: _ => false end.

(** [s] is truthy in a condition: the empty string is the one falsy string. *)
Definition truthy (s : jsstring) : bool := negb (is_empty s).

Definition in_range (lo hi c : char) : bool := N.leb lo c && N.leb c hi.

(** The class [\s] of a regular expression without the [u] flag, which is
    also the set that [String.prototype.trim] strips: WhiteSpace and
    LineTerminator code points. *)
Definition is_ws (c : char) : bool :=
  in_range 9 13 c            (* \t \n \v \f \r *)
  || N.eqb c 32              (* space *)
  || N.eqb c 160             (* U+00A0 *)
  || N.eqb c 5760            (* U+1680 *)
  || in_range 8192 8202 c    (* U+2000 .. U+200A *)
  || N.eqb c 8232            (* U+2028 *)
  || N.eqb c 8233            (* U+2029 *)
  || N.eqb c 8239            (* U+202F *)
  || N.eqb c 8287            (* U+205F *)
  || N.eqb c 12288           (* U+3000 *)
  || N.eqb c 65279.          (* U+FEFF *)

Definition space : char := 32.

(** [s.trimStart()] *)
Fixpoint trimStart (s : jsstring) : jsstring :=
  match s with
  | [] => []
  | c :: r => if is_ws c then trimStart r else s
  end.

(** [s.trimEnd()] *)
Fixpoint trimEnd (s : jsstring) : jsstring :=
  match s with
  | [] => []
  | c :: r =>
      let r' := trimEnd r in
      if is_ws c && is_empty r' then [] else c :: r'
  end.

(** [s.trim()] *)
Definition trim (s : jsstring) : jsstring := trimEnd (trimStart s).

(** [s.replace(/[...]/g, '')] for a character class given as a predicate. *)
Definition remove_class (cls : char -> bool) (s : jsstring) : jsstring :=
  List.filter (fun c => negb (cls c)) s.

(** [s.replace(/[^...]/g, ' ')]: every character outside the class becomes
    one space. *)
Definition replace_outside (cls : char -> bool) (s : jsstring) : jsstring :=
  List.map (fun c => if cls c then c else space) s.

(** [s.replace(/\s+/g, ' ')], written as the scanner the regular expression
    denotes: [in_run] tells that the previous character belonged to the
    run of white space being replaced. *)
Fixpoint collapse_ws_from (in_run : bool) (s : jsstring) : jsstring :=
  match s with
  | [] => []
  | c :: r =>
      if is_ws c
      then (if in_run then collapse_ws_from true r
            else space :: collapse_ws_from true r)
      else c :: collapse_ws_from false r
  end.

Definition collapse_ws (s : jsstring) : jsstring := collapse_ws_from false s.

(** The strings that [collapse_ws_from in_run] leaves as they are: every
    white space character is a space and none follows another (nor starts
    the string when [in_run]). *)
Fixpoint single_spaced_from (in_run : bool) (s : jsstring) : bool :=
  match s with
  | [] => true
  | c :: r =>
      if is_ws c
      then negb in_run && N.eqb c space && single_spaced_from true r
      else single_spaced_from false r
  end.

(** No white space at the head. *)
Definition starts_clean (s : jsstring) : bool :=
  match s with
  | [] => true
  | c :: _ => negb (is_ws c)
  end.

(** [ToIntegerOrInfinity] followed by the clamp of [substring]. *)
Definition clamp (len i : Z) : Z := Z.min (Z.max i 0) len.

(** [s.substring(start, end)] on integer arguments: both are clamped to
    [0 .. length] and swapped when out of order. *)
Definition substring (s : jsstring) (start end_ : Z) : jsstring :=
  let len := Z.of_nat (List.length s) in
  let a := clamp len start in
  let b := clamp len end_ in
  let from := Z.min a b in
  let to := Z.max a b in
  firstn (Z.to_nat (to - from)) (skipn (Z.to_nat from) s).

(** [s.includes(pat)] *)
Fixpoint starts_with (pat s : jsstring) : bool :=
  match pat, s with
  | [], _ => true
  | p :: pat', c :: s' => char_eqb p c && starts_with pat' s'
  | _ :: _, [] => false
  end.

Fixpoint includes (s pat : jsstring) : bool :=
  starts_with pat s ||
  match s with
  | [] => false
  | _ :: s' => includes s' pat
  end.

(** [s.endsWith(pat)] *)
Definition endsWith (s pat : jsstring) : bool :=
  starts_with (rev pat) (rev s).

(** The template [`${n}`] of an integer. *)
Definition of_Z (n : Z) : jsstring := lit (NilZero.string_of_int (Z.to_int n)).

End Js.

Import Js.

(** Code that may throw. *)
Inductive result (A : Type) : Type :=
| Ok (a : A)
| Throw.
Arguments Ok {A} a.
Arguments Throw {A}.

(* ================================================================= *)
(** ** The query sanitizer ([DocumentSearch.sanitizeSearchQuery]) *)

Module Sanitizer.

Local Open Scope N_scope.

Definition is_dot (c : char) : bool := N.eqb c 46.
Definition is_paren (c : char) : bool := N.eqb c 40 || N.eqb c 41.
Definition is_star (c : char) : bool := N.eqb c 42.
Definition is_qmark (c : char) : bool := N.eqb c 63.
Definition is_brace (c : char) : bool := N.eqb c 123 || N.eqb c 125.
Definition is_bracket (c : char) : bool := N.eqb c 91 || N.eqb c 93.

Definition is_alnum (c : char) : bool :=
  in_range 97 122 c || in_range 65 90 c || in_range 48 57 c.

(** The class [[a-zA-Z0-9\s_-]]. *)
Definition is_kept (c : char) : bool :=
  is_alnum c || is_ws c || N.eqb c 95 || N.eqb c 45.

Definition sanitizeSearchQuery (query : jsstring) : jsstring :=
  trim
    (collapse_ws
       (replace_outside is_kept
          (remove_class is_bracket
             (remove_class is_brace
                (remove_class is_qmark
                   (remove_class is_star
                      (remove_class is_paren
                         (remove_class is_dot query)))))))).

(** The safe set the specification names: ASCII letters, digits, the
    space, underscore and hyphen. *)
Definition is_safe (c : char) : bool :=
  is_alnum c || N.eqb c 32 || N.eqb c 95 || N.eqb c 45.

(** The characters the FTS5 query grammar reads as operators. *)
Definition operators : jsstring := lit ".()*?{}[]".

End Sanitizer.

(* ================================================================= *)
(** ** The document store ([src/database/schema.ts]) *)

Module Store.

(** A row of the [documents] table, with the two columns that
    [Migration.migrateToV2] adds. *)
Record DocumentRow : Type := mkRow {
  id : jsstring;
  unity_version : jsstring;
  type : jsstring;
  title : jsstring;
  file_path : jsstring;
  url : option jsstring;
  content : jsstring;
  html : jsstring;
  created_at : jsstring;
  updated_at : jsstring;
  package_name : option jsstring;
  package_version : option jsstring
}.

(** The table, in rowid order. *)
Definition table := list DocumentRow.

(** [CHECK (type IN ('manual', 'script-reference'))] of
    [CREATE_TABLES_SQL].  [migrateToV2] only adds columns and an index: the
    constraint of the table stays the one it was created with. *)
Definition type_check (t : jsstring) : bool :=
  existsb (Js.eqb t) [lit "manual"; lit "script-reference"].

(** The closed set of document types of the specification. *)
Definition document_types : list jsstring :=
  [lit "manual"; lit "script-reference"; lit "package-docs"].

Definition has_id (i : jsstring) (t : table) : bool :=
  existsb (fun d => Js.eqb (id d) i) t.

(** [INSERT INTO documents (...) VALUES (...)]: the statement fails on a
    [CHECK] violation and on a primary key that is already there. *)
Definition insert (d : DocumentRow) (t : table) : result table :=
  if negb (type_check (type d)) then Throw
  else if has_id (id d) t then Throw
  else Ok (t ++ [d]).

(** [INSERT OR REPLACE INTO documents (...) VALUES (...)]: a row with the
    same primary key is deleted first; a [CHECK] violation still fails. *)
Definition insert_or_replace (d : DocumentRow) (t : table) : result table :=
  if negb (type_check (type d)) then Throw
  else Ok (List.filter (fun r => negb (Js.eqb (id r) (id d))) t ++ [d]).

(** [UPDATE documents SET type = ? WHERE id = ?]: the [CHECK] is evaluated
    for every row the statement changes; the trigger
    [documents_update_timestamp] then writes [CURRENT_TIMESTAMP], here
    [now], into [updated_at] of the row. *)
Definition update_type (i new_type now : jsstring) (t : table) : result table :=
  if has_id i t && negb (type_check new_type) then Throw
  else Ok (List.map (fun r =>
             if Js.eqb (id r) i
             then mkRow (id r) (unity_version r) new_type (title r)
                    (file_path r) (url r) (content r) (html r)
                    (created_at r) now (package_name r) (package_version r)
             else r) t).

(** [DELETE FROM documents WHERE unity_version = ?] *)
Definition delete_version (v : jsstring) (t : table) : table :=
  List.filter (fun d => negb (Js.eqb (unity_version d) v)) t.

(** [SELECT * FROM documents WHERE file_path = ? AND unity_version = ?],
    first row. *)
Definition get_by_path (p v : jsstring) (t : table) : option DocumentRow :=
  List.find (fun d => Js.eqb (file_path d) p && Js.eqb (unity_version d) v) t.

Definition ids (t : table) : list jsstring := List.map id t.

End Store.

(* ================================================================= *)
(** ** The search engine ([DocumentSearch.search]) *)

Module Search.

Import Store.

(** The options of a search.  [o_limit] and [o_offset] are JavaScript
    numbers that hold an integer. *)
Record SearchOptions : Type := mkOptions {
  o_query : jsstring;
  o_limit : option Z;
  o_offset : option Z;
  o_type : option jsstring;
  o_version : option jsstring;
  o_packageName : option jsstring;
  o_packageVersion : option jsstring
}.

Record SearchResult : Type := mkResult {
  r_id : jsstring;
  r_title : jsstring;
  r_type : jsstring;
  r_filePath : jsstring;
  r_url : option jsstring;
  r_packageName : option jsstring;
  r_packageVersion : option jsstring;
  r_snippet : jsstring;
  r_score : Q
}.

(** The statement that [search] assembles: the text it appends to [sql]
    and the parameters it pushes, read together. *)
Record Statement : Type := mkStatement {
  s_match : jsstring;
  s_version : jsstring;
  s_type : option jsstring;
  s_package_name : option jsstring;
  s_package_version : option jsstring;
  s_limit : Z;
  s_offset : Z
}.

(** A row of the result set, before [results.map]. *)
Record Hit : Type := mkHit {
  h_row : DocumentRow;
  h_snippet : jsstring;
  h_rank : Q
}.

Definition default {A} (d : A) (o : option A) : A :=
  match o with Some a => a | None => d end.

(** An optional parameter that is filtered on only when truthy. *)
Definition when_truthy (o : option jsstring) : option jsstring :=
  match o with
  | Some s => if truthy s then Some s else None
  | None => None
  end.

Definition opt_eqb (col : option jsstring) (v : jsstring) : bool :=
  match col with Some c => Js.eqb c v | None => false end.

(** [ORDER BY rank]: ascending, by insertion. *)
Fixpoint insert_hit (h : Hit) (l : list Hit) : list Hit :=
  match l with
  | [] => [h]
  | x :: r => if Qle_bool (h_rank h) (h_rank x) then h :: l
              else x :: insert_hit h r
  end.

Definition order_by_rank (l : list Hit) : list Hit :=
  fold_right insert_hit [] l.

(** SQLite wants the values of [LIMIT] and [OFFSET] to be integers of the
    signed 64-bit range: bound to another number ([2 ^ 63], [-1e21]; also
    a number with a fraction, which the options here do not hold), the
    statement fails with "datatype mismatch". *)
Definition int64 (v : Z) : bool := (- 2 ^ 63 <=? v) && (v <? 2 ^ 63).

(** [LIMIT ? OFFSET ?] as SQLite reads two integers of that range: a
    negative limit is no limit, a negative offset is zero. *)
Definition limit_offset (limit offset : Z) (l : list Hit) : list Hit :=
  let l' := skipn (Z.to_nat offset) l in
  if limit <? 0 then l' else firstn (Z.to_nat limit) l'.

Section Engine.

(** The FTS5 engine.  [fts_match q] is [None] when [q] is not a query of
    its grammar (the statement then fails); otherwise it gives, for a row,
    its rank when the row matches. *)
Variable fts_match : jsstring -> option (DocumentRow -> option Q).

(** [snippet(documents_fts, 1, '<mark>', '</mark>', '...', 64)] *)
Variable fts_snippet : jsstring -> DocumentRow -> jsstring.

Definition where_clause (s : Statement) (d : DocumentRow) : bool :=
  Js.eqb (unity_version d) (s_version s)
  && match s_type s with Some t => Js.eqb (type d) t | None => true end
  && match s_package_name s with
     | Some p => opt_eqb (package_name d) p | None => true end
  && match s_package_version s with
     | Some p => opt_eqb (package_version d) p | None => true end.

Definition hits_of (s : Statement) (rank : DocumentRow -> option Q)
    (t : table) : list Hit :=
  flat_map (fun d =>
    match rank d with
    | Some r => [mkHit d (fts_snippet (s_match s) d) r]
    | None => []
    end) (List.filter (where_clause s) t).

(** [db.prepare(sql).all(...params)]: the statement fails when the engine
    rejects the query, and when the limit or the offset is not an integer
    that SQLite takes. *)
Definition run_statement (s : Statement) (t : table) : result (list Hit) :=
  match fts_match (s_match s) with
  | None => Throw
  | Some rank =>
      if int64 (s_limit s) && int64 (s_offset s)
      then Ok (limit_offset (s_limit s) (s_offset s)
                 (order_by_rank (hits_of s rank t)))
      else Throw
  end.

Definition to_result (h : Hit) : SearchResult :=
  let d := h_row h in
  mkResult (id d) (title d) (type d) (file_path d) (url d)
    (package_name d) (package_version d) (h_snippet h) (Qabs (h_rank h)).

(** What a call of [search] does: the value it returns or the fact that it
    throws, and the statements it ran against the store. *)
Record Outcome : Type := mkOutcome {
  returned : result (list SearchResult);
  executed : list Statement
}.

Definition build_statement (sanitizedQuery : jsstring) (o : SearchOptions)
    : Statement :=
  let limit := default 10 (o_limit o) in
  let offset := default 0 (o_offset o) in
  let type := default (lit "all") (o_type o) in
  let version := default (lit "6000.1") (o_version o) in
  mkStatement sanitizedQuery version
    (if Js.eqb type (lit "all") then None else Some type)
    (when_truthy (o_packageName o))
    (when_truthy (o_packageVersion o))
    limit offset.

Definition search (t : table) (o : SearchOptions) : Outcome :=
  let sanitizedQuery := Sanitizer.sanitizeSearchQuery (o_query o) in
  if negb (truthy (trim sanitizedQuery)) then mkOutcome (Ok []) []
  else
    let s := build_statement sanitizedQuery o in
    match run_statement s t with
    | Ok rows => mkOutcome (Ok (List.map to_result rows)) [s]
    | Throw => mkOutcome Throw [s]
    end.

End Engine.

End Search.

(* ================================================================= *)
(** ** The HTML parser ([HtmlParser], [src/parser/index.ts]) *)

Module Parser.

Record ParsedDocument : Type := mkParsed {
  p_title : jsstring;
  p_content : jsstring;
  p_type : jsstring
}.

(** [detectDocumentType] *)
Definition detectDocumentType (filePath : jsstring) : jsstring :=
  if includes filePath (lit "Manual/") || includes filePath (lit "/Manual/")
  then lit "manual"
  else if includes filePath (lit "ScriptReference/")
          || includes filePath (lit "/ScriptReference/")
  then lit "script-reference"
  else lit "manual".

Section Cheerio.

(** [extractTitle] and [extractContent] read the DOM that cheerio builds
    from the markup; they are functions of the markup alone. *)
Variable extractTitle : jsstring -> jsstring.
Variable extractContent : jsstring -> jsstring.

(** [HtmlParser.parse] *)
Definition parse (html filePath : jsstring) : ParsedDocument :=
  mkParsed (extractTitle html) (extractContent html)
    (detectDocumentType filePath).

End Cheerio.

End Parser.

(* ================================================================= *)
(** ** Pagination ([read_unity_doc], [src/server.ts]) *)

Module Pagination.

Import Store.

Definition nl : jsstring := [10%N].

(** The values the handler computes from [content], [offset], [limit]. *)
Record Page : Type := mkPage {
  contentChunk : jsstring;
  totalLength : Z;
  hasMore : bool;
  position_from : Z;
  position_to : Z;
  nextOffset : Z
}.

Definition paginate (content : jsstring) (offset limit : Z) : Page :=
  let contentChunk := substring content offset (offset + limit) in
  let totalLength := Z.of_nat (List.length content) in
  let hasMore := (offset + limit) <? totalLength in
  mkPage contentChunk totalLength hasMore offset (offset + limit)
    (offset + limit).

(** The text that follows the chunk in the response. *)
Definition trailer (p : Page) : jsstring :=
  if hasMore p then
    nl ++ nl ++ lit "... (content truncated)"
    ++ nl ++ nl ++ lit "**Pagination Info:**"
    ++ nl ++ lit "- Total length: " ++ of_Z (totalLength p)
       ++ lit " characters"
    ++ nl ++ lit "- Current position: " ++ of_Z (position_from p)
       ++ lit "-" ++ of_Z (position_to p)
    ++ nl ++ lit "- Next offset: " ++ of_Z (nextOffset p)
  else
    nl ++ nl ++ lit "**Complete content shown** (" ++ of_Z (totalLength p)
    ++ lit " characters)".

(** What [readFile] settles to for a path that [existsSync] finds: the
    promise is fulfilled with the text of the file, or rejected (the path
    is a directory, the file cannot be read) with an error and its
    message. *)
Inductive readFile_result : Type :=
| Rejected (message : jsstring)
| Fulfilled (html : jsstring).

(** What the handler answers: a "not found" text or a page of a document,
    which are normal responses and no errors, or the text that the
    handler's [catch] makes of an error. *)
Inductive Response : Type :=
| NotFound (path : jsstring)
| Shown (header : jsstring) (page : Page) (codeBlocks : list jsstring)
| Failed (message : jsstring).

Definition code_examples (codeBlocks : list jsstring) : jsstring :=
  match codeBlocks with
  | [] => []
  | _ :: _ =>
      nl ++ nl ++ lit "## Code Examples:" ++ nl ++ nl
      ++ flat_map (fun code =>
           lit "```csharp" ++ nl ++ code ++ nl ++ lit "```" ++ nl ++ nl)
           (firstn 3 codeBlocks)
  end.

(** The [text] of the response. *)
Definition render (r : Response) : jsstring :=
  match r with
  | NotFound path => lit "Documentation file not found: " ++ path
  | Shown header page codeBlocks =>
      header ++ contentChunk page ++ trailer page ++ code_examples codeBlocks
  | Failed message => lit "Error: " ++ message
  end.

Section Handler.

Variable extractTitle : jsstring -> jsstring.
Variable extractContent : jsstring -> jsstring.
(** [parser.extractCodeBlocks(cheerio.load(doc.html))] *)
Variable extractCodeBlocks : jsstring -> list jsstring.
(** The path under [data/extracted/unity-6000.1]: [None] when
    [existsSync] does not find it, otherwise what [readFile] settles to. *)
Variable extracted_file : jsstring -> option readFile_result.
(** The [unity_version] entry of [version_info], or its default. *)
Variable unityVersion : jsstring.

Definition db_header (doc : DocumentRow) : jsstring :=
  lit "# " ++ title doc ++ nl ++ nl
  ++ lit "**Type:** " ++ type doc ++ nl
  ++ lit "**Unity Version:** " ++ unityVersion ++ nl
  ++ lit "**Path:** " ++ file_path doc ++ nl ++ nl.

Definition file_header (parsed : Parser.ParsedDocument) : jsstring :=
  lit "# " ++ Parser.p_title parsed ++ nl ++ nl
  ++ lit "**Type:** " ++ Parser.p_type parsed ++ nl
  ++ lit "**Unity Version:** " ++ unityVersion ++ nl ++ nl.

(** The [read_unity_doc] branch of the tool handler; [offset] and [limit]
    are the arguments after their defaults (0 and 2000). *)
Definition read_unity_doc (t : table) (path : jsstring) (offset limit : Z)
    : Response :=
  match get_by_path path (lit "6000.1") t with
  | Some doc =>
      Shown (db_header doc) (paginate (content doc) offset limit)
        (extractCodeBlocks (html doc))
  | None =>
      match extracted_file path with
      | None => NotFound path
      | Some (Rejected message) => Failed message
      | Some (Fulfilled html) =>
          let parsed := Parser.parse extractTitle extractContent html path in
          Shown (file_header parsed)
            (paginate (Parser.p_content parsed) offset limit) []
      end
  end.

End Handler.

(** A client that reads a whole document: it starts at [offset], asks for
    pages of [limit] characters at the offset the previous page named, and
    stops at the first page that says no more content remains.  [fuel]
    bounds the number of requests. *)
Fixpoint read_all (fuel : nat) (content : jsstring) (offset limit : Z)
    : option jsstring :=
  match fuel with
  | O => None
  | S fuel' =>
      let p := paginate content offset limit in
      if hasMore p then
        match read_all fuel' content (nextOffset p) limit with
        | Some rest => Some (contentChunk p ++ rest)
        | None => None
        end
      else Some (contentChunk p)
  end.

End Pagination.

(* ================================================================= *)
(** ** The section extractor ([extractSections], [src/server.ts]) *)

Module Sections.

Definition nl : jsstring := [10%N].

(** The DOM that [cheerio.load] builds: elements and text. *)
Inductive node : Type :=
| Text (s : jsstring)
| Elem (tag : jsstring) (kids : list node).

(** [$(n).text()] *)
Fixpoint text (n : node) : jsstring :=
  match n with
  | Text s => s
  | Elem _ kids => flat_map text kids
  end.

(** [parseInt(tagName.substring(1))] on the tags that the selector
    ['h1, h2, h3, h4, h5, h6'] matches. *)
Definition heading_level (tag : jsstring) : option Z :=
  match tag with
  | [h; d] =>
      if (N.eqb h 104 && in_range 49 54 d)%N
      then Some (Z.of_N d - 48) else None
  | _ => None
  end.

Definition is_heading (n : node) : bool :=
  match n with
  | Elem tag _ => match heading_level tag with Some _ => true | None => false end
  | Text _ => false
  end.

(** An element is identified by its position: the child indexes on the way
    from the root. *)
Definition position := list nat.

Fixpoint position_eqb (p q : position) : bool :=
  match p, q with
  | [], [] => true
  | a :: p', b :: q' => Nat.eqb a b && position_eqb p' q'
  | _, _ => false
  end.

(** The element siblings among [l], the children of [parent] from index [k]
    on: what repeated [.next()] visits. *)
Fixpoint sibling_elements (parent : position) (k : nat) (l : list node)
    : list (position * node) :=
  match l with
  | [] => []
  | Text _ :: r => sibling_elements parent (S k) r
  | (Elem _ _ as e) :: r => (parent ++ [k], e) :: sibling_elements parent (S k) r
  end.

(** A member of the array [headings]. *)
Record Heading : Type := mkHeading {
  h_position : position;
  h_level : Z;
  h_element : node;
  h_following : list (position * node)
}.

(** The headings among the children [l] of the node at [here], the first
    of which has index [k], and below them, in document order; [below]
    gives the headings below one child. *)
Definition headings_among (below : position -> node -> list Heading)
    (here : position) : nat -> list node -> list Heading :=
  fix walk (k : nat) (l : list node) {struct l} : list Heading :=
    match l with
    | [] => []
    | c :: r =>
        match c with
        | Elem tag _ =>
            match heading_level tag with
            | Some lv =>
                [mkHeading (here ++ [k]) lv c (sibling_elements here (S k) r)]
            | None => []
            end
        | Text _ => []
        end
        ++ below (here ++ [k]) c
        ++ walk (S k) r
    end.

(** The headings below the node at [here], in document order. *)
Fixpoint headings_below (here : position) (n : node) {struct n}
    : list Heading :=
  match n with
  | Text _ => []
  | Elem _ kids => headings_among headings_below here O kids
  end.

(** The node at a position below [n]. *)
Fixpoint node_at (n : node) (p : position) : option node :=
  match p with
  | [] => Some n
  | k :: p' =>
      match n with
      | Elem _ kids =>
          match nth_error kids k with
          | Some c => node_at c p'
          | None => None
          end
      | Text _ => None
      end
  end.

(** [$('h1, h2, h3, h4, h5, h6').toArray()] on a document whose root is
    [root]. *)
Definition headings (root : node) : list Heading := headings_below [] root.

Record DocumentSection : Type := mkSection {
  s_id : jsstring;
  s_title : jsstring;
  s_level : Z;
  s_start : Z;
  s_end : Z;
  s_content : jsstring
}.

(** The [for] loop: the first later heading whose level is at most
    [level]. *)
Definition find_nextHeading (level : Z) (later : list Heading)
    : option Heading :=
  List.find (fun h => h_level h <=? level) later.

Definition is_node (p : position) (nextHeading : option Heading) : bool :=
  match nextHeading with
  | Some h => position_eqb p (h_position h)
  | None => false
  end.

(** The [while] loop over the following siblings. *)
Fixpoint accumulate (nextHeading : option Heading)
    (following : list (position * node)) (sectionContent : jsstring)
    : jsstring :=
  match following with
  | [] => sectionContent
  | (p, current) :: r =>
      if is_node p nextHeading then sectionContent
      else if is_heading current then sectionContent
      else
        let currentText := trim (text current) in
        accumulate nextHeading r
          (if truthy currentText then sectionContent ++ currentText ++ nl
           else sectionContent)
  end.

(** The body of [headings.forEach] for the heading at [index]; [later] is
    the part of the array after it. *)
Definition section_of (index : nat) (heading : Heading) (later : list Heading)
    : DocumentSection :=
  let level := h_level heading in
  let title := trim (text (h_element heading)) in
  let id := lit "section-" ++ of_Z (Z.of_nat index) in
  let nextHeading := find_nextHeading level later in
  let sectionContent :=
    accumulate nextHeading (h_following heading) (title ++ nl ++ nl) in
  mkSection id title level 0 0 (trim sectionContent).

Fixpoint sections_from (index : nat) (hs : list Heading)
    : list DocumentSection :=
  match hs with
  | [] => []
  | h :: later => section_of index h later :: sections_from (S index) later
  end.

Definition extractSections (root : node) : list DocumentSection :=
  sections_from O (headings root).

(** *** The content the specification describes *)

(** The document as a reader sees it: headings and text, in order. *)
Inductive item : Type :=
| IHeading (level : Z) (title : jsstring)
| IText (s : jsstring).

Fixpoint items (n : node) : list item :=
  match n with
  | Text s => [IText s]
  | Elem tag kids =>
      match heading_level tag with
      | Some lv => [IHeading lv (flat_map text kids)]
      | None => flat_map items kids
      end
  end.

(** The text from the head of [l] up to the next heading of level at most
    [level], or to the end. *)
Fixpoint text_until (level : Z) (l : list item) : jsstring :=
  match l with
  | [] => []
  | IText s :: r => s ++ text_until level r
  | IHeading lv title :: r =>
      if lv <=? level then [] else title ++ text_until level r
  end.

(** The text strictly between each heading and the next heading of equal or
    shallower level, one entry per heading, in document order. *)
Fixpoint spec_contents (l : list item) : list jsstring :=
  match l with
  | [] => []
  | IText _ :: r => spec_contents r
  | IHeading lv _ :: r => text_until lv r :: spec_contents r
  end.

(** The content the code computes, stated without the search for
    [nextHeading]: the title, a blank line, then one line per following
    sibling element with text, up to the first sibling that is a heading. *)
Fixpoint lines_until_heading (following : list (position * node)) : jsstring :=
  match following with
  | [] => []
  | (_, current) :: r =>
      if is_heading current then []
      else
        let currentText := trim (text current) in
        (if truthy currentText then currentText ++ nl else [])
        ++ lines_until_heading r
  end.

(** The content of a section as the code computes it. *)
Definition content_of (heading : Heading) : jsstring :=
  let title := trim (text (h_element heading)) in
  trim (title ++ nl ++ nl ++ lines_until_heading (h_following heading)).

(** A heading of the array, seen from the node [n] at [here]: its position
    leads to its element, which is a heading, and the positions of the
    siblings after it lead to them. *)
Definition located (here : position) (n : node) (h : Heading) : Prop :=
  (exists p, h_position h = here ++ p /\ node_at n p = Some (h_element h))
  /\ is_heading (h_element h) = true
  /\ forall q m, In (q, m) (h_following h) ->
       exists p, q = here ++ p /\ node_at n p = Some m.

End Sections.

(* ================================================================= *)
(** ** The document indexer ([main] of [src/scripts/index-docs.ts]) *)

Module Indexer.

Import Store.

(** What [readdir] and [readFile] find below the documentation directory.
    [None] stands for a call that rejects (a missing or unreadable
    directory or file). *)
Inductive entry : Type :=
| File (name : jsstring) (data : option jsstring)
| Dir (name : jsstring) (entries : option (list entry)).

(** The mutable state of a run: the table and the two counters. *)
Record Run : Type := mkRun {
  store : table;
  processedCount : Z;
  errorCount : Z
}.

(** A traversal either completes or throws; the table is what the
    statements run so far have made of it in both cases, since every
    statement commits on its own. *)
Inductive outcome : Type :=
| Done (st : Run)
| Failed (st : Run).

Definition final (o : outcome) : Run :=
  match o with Done st => st | Failed st => st end.

(** [for (const entry of entries)] with a body that may throw. *)
Definition for_each {A : Type} (body : A -> Run -> outcome)
    : list A -> Run -> outcome :=
  fix loop (l : list A) (st : Run) {struct l} : outcome :=
    match l with
    | [] => Done st
    | a :: r =>
        match body a st with
        | Done st' => loop r st'
        | Failed st' => Failed st'
        end
    end.

(** Two traversals end the same way, in states that [R] relates. *)
Definition related (R : Run -> Run -> Prop) (o1 o2 : outcome) : Prop :=
  match o1, o2 with
  | Done a, Done b => R a b
  | Failed a, Failed b => R a b
  | _, _ => False
  end.

Inductive exit : Type :=
| Completed
| ExitFailure.

Section Script.

(** [crypto.createHash('sha256').update(s).digest('hex')] *)
Variable sha256_hex : jsstring -> jsstring.
Variable extractTitle : jsstring -> jsstring.
Variable extractContent : jsstring -> jsstring.

(** [CURRENT_TIMESTAMP] during the run. *)
Variable now : jsstring.
(** The command line argument, absent or given. *)
Variable argv2 : option jsstring.

Definition version : jsstring :=
  match argv2 with
  | Some v => if truthy v then v else lit "6000.1"
  | None => lit "6000.1"
  end.

Definition document_id (relativePath : jsstring) : jsstring :=
  substring (sha256_hex (version ++ lit ":" ++ relativePath)) 0 16.

Definition count_error (st : Run) : Run :=
  mkRun (store st) (processedCount st) (errorCount st + 1).

(** The [try] block for one [.html] file and its [catch]. *)
Definition process_file (relativePath : jsstring) (data : option jsstring)
    (st : Run) : Run :=
  match data with
  | None => count_error st
  | Some html =>
      let parsed := Parser.parse extractTitle extractContent html relativePath in
      let id := document_id relativePath in
      let url := lit "unity://" ++ version ++ lit "/" ++ relativePath in
      match insert
              (mkRow id version (Parser.p_type parsed) (Parser.p_title parsed)
                 relativePath (Some url) (Parser.p_content parsed) html
                 now now None None)
              (store st) with
      | Ok t' => mkRun t' (processedCount st + 1) (errorCount st)
      | Throw => count_error st
      end
  end.

(** One iteration of the loop of [processDirectory].  [prefix] is the path
    of the directory relative to [docsPath], with its trailing slash: the
    relative path of an entry is [prefix ++ name]. *)
Fixpoint process_entry (prefix : jsstring) (e : entry) (st : Run) {struct e}
    : outcome :=
  match e with
  | File name data =>
      if endsWith name (lit ".html")
      then Done (process_file (prefix ++ name) data st)
      else Done st
  | Dir name None => Failed st
  | Dir name (Some entries) =>
      for_each (process_entry (prefix ++ name ++ lit "/")) entries st
  end.

(** [processDirectory(docsPath)] *)
Definition processDirectory (docs : option (list entry)) (st : Run) : outcome :=
  match docs with
  | None => Failed st
  | Some entries => for_each (process_entry []) entries st
  end.

(** [main], on an initialised database: the table it leaves and how the
    process ends.  [optimize_ok] tells whether the final
    [INSERT INTO documents_fts(documents_fts) VALUES('optimize')]
    succeeds. *)
Definition main (docs : option (list entry)) (optimize_ok : bool) (t : table)
    : table * exit :=
  let cleared := delete_version version t in
  match processDirectory docs (mkRun cleared 0 0) with
  | Failed st => (store st, ExitFailure)
  | Done st =>
      if optimize_ok then (store st, Completed) else (store st, ExitFailure)
  end.

End Script.

End Indexer.

(* ================================================================= *)
(** ** Sample data

    Concrete tables, engines, documents and directories on which the
    definitions above are run. *)

Module Samples.

Import Store.

Definition row (i v ty ttl path body : string) : DocumentRow :=
  mkRow (lit i) (lit v) (lit ty) (lit ttl) (lit path) None (lit body)
    (lit body) (lit "2024-11-20 00:00:00") (lit "2024-11-20 00:00:00")
    None None.

Definition rigidbody_manual : DocumentRow :=
  row "a1" "6000.1" "manual" "Rigidbody overview"
    "Manual/RigidbodiesOverview.html" "A Rigidbody gives physics to an object".

Definition rigidbody_api : DocumentRow :=
  row "b2" "6000.1" "script-reference" "Rigidbody"
    "ScriptReference/Rigidbody.html" "Rigidbody class in UnityEngine".

Definition animator_manual : DocumentRow :=
  row "c3" "6000.1" "manual" "Animator"
    "Manual/class-Animator.html" "The Animator component and a Rigidbody".

Definition old_manual : DocumentRow :=
  row "d4" "2022.3" "manual" "Rigidbody overview"
    "Manual/RigidbodiesOverview.html" "Rigidbody in the previous release".

Definition docs : table :=
  [rigidbody_manual; rigidbody_api; animator_manual; old_manual].

(** An engine that accepts every query, matches the rows whose content
    includes it, and ranks a row by minus the length of its title. *)
Definition fts_match (q : jsstring) : option (DocumentRow -> option Q) :=
  Some (fun d =>
    if includes (content d) q
    then Some (inject_Z (- Z.of_nat (List.length (title d))))
    else None).

Definition fts_snippet (q : jsstring) (d : DocumentRow) : jsstring :=
  lit "<mark>" ++ q ++ lit "</mark>".

Definition options (q : string) (limit : option Z) (ty : option string)
    : Search.SearchOptions :=
  Search.mkOptions (lit q) limit None (option_map lit ty) None None None.

Definition element (tag s : string) : Sections.node :=
  Sections.Elem (lit tag) [Sections.Text (lit s)].

(** A page with a title, an introduction and two subsections. *)
Definition page : Sections.node :=
  Sections.Elem (lit "body")
    [element "h1" "Rigidbody"; element "p" " Physics for an object. ";
     element "h2" "Mass"; element "p" "In kilograms.";
     element "h2" "Drag"; element "p" "Air resistance."].

(** A heading followed by one paragraph. *)
Definition short_page : Sections.node :=
  Sections.Elem (lit "body")
    [element "h1" "A"; element "p" "x"].

(** Stand-ins for the collaborators the code calls: a digest (the
    identity; the code uses SHA-256), a title and a content extractor. *)
Definition digest (s : jsstring) : jsstring := s.
Definition extractTitle (html : jsstring) : jsstring := lit "Untitled".
Definition extractContent (html : jsstring) : jsstring := html.
Definition extractCodeBlocks (html : jsstring) : list jsstring := [].
Definition extracted_file (path : jsstring) : option Pagination.readFile_result :=
  None.

(** An extracted archive: two manual pages, a script reference page, a
    style sheet and a file that cannot be read. *)
Definition tree : option (list Indexer.entry) :=
  Some
    [Indexer.Dir (lit "Manual")
       (Some [Indexer.File (lit "index.html") (Some (lit "<h1>Manual</h1>"));
              Indexer.File (lit "Rigidbody.html") (Some (lit "<h1>Rigidbody</h1>"));
              Indexer.File (lit "broken.html") None]);
     Indexer.File (lit "style.css") (Some (lit "body {}"));
     Indexer.Dir (lit "ScriptReference")
       (Some [Indexer.File (lit "Rigidbody.html") (Some (lit "<h1>Rigidbody</h1>"))])].

(** The same archive with a directory that cannot be read. *)
Definition damaged_tree : option (list Indexer.entry) :=
  Some
    [Indexer.Dir (lit "Manual")
       (Some [Indexer.File (lit "index.html") (Some (lit "<h1>Manual</h1>"))]);
     Indexer.Dir (lit "ScriptReference") None].

(** A content of 25 characters. *)
Definition content25 : jsstring := lit "abcdefghijklmnopqrstuvwxy".

End Samples.

(* ================================================================= *)
(** ** Arrays of strings: [split], [join], [slice] *)

Module Words.

(** [s.split(/\s+/)], as the scanner the regular expression denotes: the
    pieces between the maximal runs of white space, with an empty piece
    before a leading run and after a trailing one.  [in_run] tells that
    the previous character belonged to the run that closed the piece
    before. *)
Fixpoint split_ws_from (in_run : bool) (s : jsstring) : list jsstring :=
  match s with
  | [] => [[]]
  | c :: r =>
      if is_ws c
      then (if in_run then split_ws_from true r
            else [] :: split_ws_from true r)
      else match split_ws_from false r with
           | w :: ws => (c :: w) :: ws
           | [] => [[c]]
           end
  end.

Definition split_ws (s : jsstring) : list jsstring := split_ws_from false s.

(** [a.join(sep)] *)
Fixpoint join (sep : jsstring) (a : list jsstring) : jsstring :=
  match a with
  | [] => []
  | [w] => w
  | w :: rest => w ++ sep ++ join sep rest
  end.

(** [a.slice(0, end)] on an integer [end]: a negative [end] counts from
    the end of the array. *)
Definition slice_to {A : Type} (a : list A) (end_ : Z) : list A :=
  let len := Z.of_nat (List.length a) in
  let final := if end_ <? 0 then Z.max (len + end_) 0 else Z.min end_ len in
  firstn (Z.to_nat final) a.

(** A character of a search token: a letter, a digit, an underscore or a
    hyphen. *)
Definition is_word (c : char) : bool :=
  Sanitizer.is_alnum c || N.eqb c 95 || N.eqb c 45.

End Words.

(* ================================================================= *)
(** ** Lookups and recommendations ([DocumentSearch], continued) *)

Module DocumentSearch.

Import Store Search Words.

(** [getDocument]: [SELECT * FROM documents WHERE id = ?], first row. *)
Definition getDocument (i : jsstring) (t : table) : option DocumentRow :=
  List.find (fun d => Js.eqb (id d) i) t.

(** [getDocumentByPath], with its default version. *)
Definition getDocumentByPath (filePath : jsstring) (version : option jsstring)
    (t : table) : option DocumentRow :=
  get_by_path filePath (default (lit "6000.1") version) t.

(** The query [findSimilar] derives from a title: the first three words
    longer than three characters. *)
Definition keywords (title : jsstring) : jsstring :=
  join (lit " ")
    (firstn 3
       (List.filter (fun word => 3 <? Z.of_nat (List.length word))
          (split_ws title))).

Section Engine.

Variable fts_match : jsstring -> option (DocumentRow -> option Q).
Variable fts_snippet : jsstring -> DocumentRow -> jsstring.

(** [findSimilar]: the [catch] turns every failure into the empty list. *)
Definition findSimilar (t : table) (documentId : jsstring) (limit : Z)
    : list SearchResult :=
  match getDocument documentId t with
  | None => []
  | Some doc =>
      let o :=
        mkOptions (keywords (title doc)) (Some (limit + 1)) None
          (Some (type doc)) (Some (unity_version doc)) None None in
      match returned (search fts_match fts_snippet t o) with
      | Throw => []
      | Ok results =>
          slice_to
            (List.filter (fun r => negb (Js.eqb (r_id r) documentId)) results)
            limit
      end
  end.

End Engine.

End DocumentSearch.

(* ================================================================= *)
(** ** The tool handlers ([CallToolRequestSchema], [src/server.ts]) *)

Module Tools.

Import Store Search Sections Words.

Definition nl : jsstring := [10%N].
Definition backtick : jsstring := [96%N].

(** The answer of a handler: a text, or the text [Error: <message>] that
    the outer [catch] makes of an exception. *)
Inductive reply : Type :=
| Text (text : jsstring)
| ErrorText.

(** [s.repeat(n)] for [n >= 0]. *)
Fixpoint repeat_string (s : jsstring) (n : nat) : jsstring :=
  match n with
  | O => []
  | S n' => s ++ repeat_string s n'
  end.



(** One entry of the section list. *)
Definition section_entry (index : nat) (section : DocumentSection) : jsstring :=
  let indent := repeat_string (lit "  ") (Z.to_nat (s_level section - 1)) in
  of_Z (Z.of_nat index + 1) ++ lit ". " ++ indent ++ lit "**"
  ++ s_title section ++ lit "** (Level " ++ of_Z (s_level section) ++ lit ")" ++ nl
  ++ lit "   " ++ indent ++ lit "ID: " ++ backtick ++ s_id section ++ backtick ++ nl
  ++ lit "   " ++ indent ++ lit "Content length: "
  ++ of_Z (Z.of_nat (List.length (s_content section))) ++ lit " characters"
  ++ nl ++ nl.

Fixpoint section_entries (index : nat) (sections : list DocumentSection)
    : jsstring :=
  match sections with
  | [] => []
  | s :: rest => section_entry index s ++ section_entries (S index) rest
  end.

Section Handlers.

Variable fts_match : jsstring -> option (DocumentRow -> option Q).
Variable fts_snippet : jsstring -> DocumentRow -> jsstring.
(** [cheerio.load] *)
Variable load : jsstring -> node.
(** The [unity_version] entry of [version_info], or its default. *)
Variable unityVersion : jsstring.


Definition not_found (path : jsstring) : reply :=
  Text (lit "Documentation file not found: " ++ path).

(** The [list_unity_doc_sections] branch. *)
Definition list_unity_doc_sections (t : table) (path : jsstring) : reply :=
  match get_by_path path (lit "6000.1") t with
  | None => not_found path
  | Some doc =>
      let sections := extractSections (load (html doc)) in
      Text (lit "# Sections in " ++ title doc ++ nl ++ nl
            ++ lit "**Unity Version:** " ++ unityVersion ++ nl
            ++ lit "**Path:** " ++ path ++ nl
            ++ lit "**Total sections:** "
            ++ of_Z (Z.of_nat (List.length sections)) ++ nl ++ nl
            ++ section_entries O sections)
  end.

Definition section_header (doc : DocumentRow) (path section_id : jsstring)
    (target : DocumentSection) : jsstring :=
  lit "# " ++ s_title target ++ nl ++ nl
  ++ lit "**Document:** " ++ title doc ++ nl
  ++ lit "**Unity Version:** " ++ unityVersion ++ nl
  ++ lit "**Path:** " ++ path ++ nl
  ++ lit "**Section ID:** " ++ section_id ++ nl
  ++ lit "**Level:** " ++ of_Z (s_level target) ++ nl ++ nl
  ++ lit "---" ++ nl ++ nl.

(** The [read_unity_doc_section] branch. *)
Definition read_unity_doc_section (t : table) (path section_id : jsstring)
    : reply :=
  match get_by_path path (lit "6000.1") t with
  | None => not_found path
  | Some doc =>
      let sections := extractSections (load (html doc)) in
      match List.find (fun s => Js.eqb (s_id s) section_id) sections with
      | None =>
          Text (lit "Section not found: " ++ section_id
                ++ lit ". Available sections: "
                ++ join (lit ", ") (List.map s_id sections))
      | Some targetSection =>
          Text (section_header doc path section_id targetSection
                ++ s_content targetSection)
      end
  end.

End Handlers.

(** The id of the section at [index]. *)
Definition section_id_of (index : nat) : jsstring :=
  lit "section-" ++ of_Z (Z.of_nat index).

End Tools.

(* ================================================================= *)
(** ** The package indexer ([indexPackageDocumentation],
       [src/scripts/index-package-docs.ts]) *)

Module PackageIndexer.

Import Store Indexer.

(** [findHtmlFiles] below one entry: the relative paths of the [.html]
    files, each with what [readFileSync] will find there.  A directory
    that cannot be read is logged and yields nothing. *)
Fixpoint html_below (prefix : jsstring) (e : entry) {struct e}
    : list (jsstring * option jsstring) :=
  match e with
  | File name data =>
      if endsWith name (lit ".html") then [(prefix ++ name, data)] else []
  | Dir _ None => []
  | Dir name (Some entries) =>
      flat_map (html_below (prefix ++ name ++ lit "/")) entries
  end.

(** [findHtmlFiles(docsPath)] *)
Definition findHtmlFiles (docs : option (list entry))
    : list (jsstring * option jsstring) :=
  match docs with
  | None => []
  | Some entries => flat_map (html_below []) entries
  end.

(** The table and the two counters of [IndexingStats]. *)
Record Progress : Type := mkProgress {
  documents : table;
  processedFiles : Z;
  failedFiles : Z
}.

Section Script.

Variable sha256_hex : jsstring -> jsstring.
Variable extractTitle : jsstring -> jsstring.
Variable extractContent : jsstring -> jsstring.
(** [new Date().toISOString()] *)
Variable now : jsstring.
Variable packageName : jsstring.
Variable packageVersion : jsstring.

Definition package_row (relativePath html : jsstring) : DocumentRow :=
  let parsed := Parser.parse extractTitle extractContent html relativePath in
  let docId := packageName ++ lit "/" ++ relativePath in
  let idHash := substring (sha256_hex docId) 0 16 in
  let url :=
    lit "https://docs.unity3d.com/Packages/" ++ packageName ++ lit "@"
    ++ packageVersion ++ lit "/" ++ relativePath in
  mkRow idHash (lit "6000.1") (lit "package-docs") (Parser.p_title parsed)
    relativePath (Some url) (Parser.p_content parsed) html now now
    (Some packageName) (Some packageVersion).

(** The body of the loop of the transaction, with its [catch]. *)
Definition index_file (file : jsstring * option jsstring) (st : Progress)
    : Progress :=
  match snd file with
  | None => mkProgress (documents st) (processedFiles st) (failedFiles st + 1)
  | Some html =>
      match insert_or_replace (package_row (fst file) html) (documents st) with
      | Ok t' => mkProgress t' (processedFiles st + 1) (failedFiles st)
      | Throw => mkProgress (documents st) (processedFiles st) (failedFiles st + 1)
      end
  end.

(** [indexPackageDocumentation]: the transaction over the files found.
    No exception leaves the loop, so the transaction commits. *)
Definition indexPackageDocumentation (docs : option (list entry)) (t : table)
    : Progress :=
  fold_left (fun st file => index_file file st) (findHtmlFiles docs)
    (mkProgress t 0 0).

End Script.

End PackageIndexer.

(* ================================================================= *)
(** ** Migrations ([Migration], [src/database/migration.ts]) *)

Module Migration.

Definition SCHEMA_VERSION : Z := 1.

(** What the migrations read and change in a database file of this
    program: the rows of [schema_version], and the columns that
    [documents] has besides those [CREATE_TABLES_SQL] gives it; each is
    absent while its table does not exist. *)
Record Database : Type := mkDatabase {
  schema_version : option (list Z);
  documents_added : option (list jsstring)
}.

(** The columns [CREATE_TABLES_SQL] gives to [documents]. *)
Definition base_columns : list jsstring :=
  [lit "id"; lit "unity_version"; lit "type"; lit "title"; lit "file_path";
   lit "url"; lit "content"; lit "html"; lit "created_at"; lit "updated_at"].

Definition has_column (c : jsstring) (cols : list jsstring) : bool :=
  existsb (Js.eqb c) cols.

(** [getCurrentVersion]: 0 without the table, else [MAX(version) ?? 0]. *)
Definition getCurrentVersion (db : Database) : Z :=
  match schema_version db with
  | None => 0
  | Some [] => 0
  | Some (v :: rest) => fold_left Z.max rest v
  end.

(** [needsMigration] *)
Definition needsMigration (db : Database) : bool :=
  getCurrentVersion db <? SCHEMA_VERSION.

(** [migrateToV1]: every [CREATE TABLE] is [IF NOT EXISTS]. *)
Definition migrateToV1 (db : Database) : Database :=
  mkDatabase
    (match schema_version db with Some rows => Some rows | None => Some [] end)
    (match documents_added db with Some cols => Some cols | None => Some [] end).

(** [ALTER TABLE documents ADD COLUMN c TEXT]: fails without the table and
    on a column that is there. *)
Definition add_column (c : jsstring) (db : Database) : result Database :=
  match documents_added db with
  | None => Throw
  | Some cols =>
      if has_column c (base_columns ++ cols) then Throw
      else Ok (mkDatabase (schema_version db) (Some (cols ++ [c])))
  end.

(** [migrateToV2] *)
Definition migrateToV2 (db : Database) : result Database :=
  match add_column (lit "package_name") db with
  | Throw => Throw
  | Ok db' => add_column (lit "package_version") db'
  end.

(** [runMigrations] *)
Definition runMigrations (fromVersion : Z) (db : Database) : result Database :=
  let db1 := if fromVersion <? 1 then migrateToV1 db else db in
  if fromVersion <? 2 then migrateToV2 db1 else Ok db1.

(** [updateSchemaVersion]: [INSERT OR REPLACE INTO schema_version]. *)
Definition updateSchemaVersion (version : Z) (db : Database) : result Database :=
  match schema_version db with
  | None => Throw
  | Some rows =>
      Ok (mkDatabase
            (Some (List.filter (fun v => negb (v =? version)) rows ++ [version]))
            (documents_added db))
  end.

(** [migrate]: the database it leaves, and whether it returned ([true]) or
    threw after [ROLLBACK] ([false]). *)
Definition migrate (db : Database) : Database * bool :=
  let currentVersion := getCurrentVersion db in
  if currentVersion <? SCHEMA_VERSION then
    match runMigrations currentVersion db with
    | Throw => (db, false)
    | Ok db1 =>
        match updateSchemaVersion SCHEMA_VERSION db1 with
        | Throw => (db, false)
        | Ok db2 => (db2, true)
        end
    end
  else (db, true).

(** A database file that was just created. *)
Definition fresh : Database := mkDatabase None None.

End Migration.

(* ================================================================= *)
(** ** The rows of the indexer *)

Module IndexedRows.

Import Store.

Section Script.

Variable sha256_hex : jsstring -> jsstring.
Variable extractTitle : jsstring -> jsstring.
Variable extractContent : jsstring -> jsstring.
Variable now : jsstring.
Variable argv2 : option jsstring.

(** The row [index-docs] writes for the page at [relativePath]. *)
Definition page_row (relativePath html : jsstring) : DocumentRow :=
  mkRow (Indexer.document_id sha256_hex argv2 relativePath)
    (Indexer.version argv2)
    (Parser.detectDocumentType relativePath) (extractTitle html) relativePath
    (Some (lit "unity://" ++ Indexer.version argv2 ++ lit "/" ++ relativePath))
    (extractContent html) html now now None None.

End Script.

End IndexedRows.

(* ================================================================= *)
(** ** Readable trees *)

Module Trees.

Import Indexer.

(** Every directory of the tree can be read. *)
Fixpoint readable (e : entry) : bool :=
  match e with
  | File _ _ => true
  | Dir _ None => false
  | Dir _ (Some entries) => forallb readable entries
  end.

Definition all_readable (docs : option (list entry)) : bool :=
  match docs with
  | None => false
  | Some entries => forallb readable entries
  end.

Definition completed (o : outcome) : bool :=
  match o with Done _ => true | Failed _ => false end.

End Trees.

(* ================================================================= *)
(** ** More sample data *)

Module MoreSamples.

Import Store.

(** A parser that gives every markup the sample page. *)
Definition load (html : jsstring) : Sections.node := Samples.page.

(** One extracted file that is not in the table, and the directory it is
    in. *)
Definition extracted_file (path : jsstring) : option Pagination.readFile_result :=
  if Js.eqb path (lit "Manual/Extra.html")
  then Some (Pagination.Fulfilled (lit "<h1>Extra</h1>"))
  else if Js.eqb path (lit "Manual")
  then Some (Pagination.Rejected
               (lit "EISDIR: illegal operation on a directory, read"))
  else None.

(** A manual page that is not in the sample table. *)
Definition collider_manual : DocumentRow :=
  Samples.row "z9" "6000.1" "manual" "Collider overview"
    "Manual/CollidersOverview.html" "A Collider gives shape to a Rigidbody".

(** The sample manual page on the Rigidbody, rewritten. *)
Definition rigidbody_manual_v2 : DocumentRow :=
  Samples.row "a1" "6000.1" "manual" "Rigidbody component"
    "Manual/RigidbodiesOverview.html" "A Rigidbody, revised".

Definition search_page (limit offset : Z) : Search.SearchOptions :=
  Search.mkOptions (lit "Rigidbody") (Some limit) (Some offset)
    (Some (lit "all")) None None None.

(** The results of a search on the sample table. *)
Definition results_of (o : Search.SearchOptions) : list Search.SearchResult :=
  match Search.returned
          (Search.search Samples.fts_match Samples.fts_snippet Samples.docs o)
  with Ok rs => rs | Throw => [] end.

(** The state in which the traversal of the sample archive ends, on an
    empty table. *)
Definition indexed_tree : Indexer.Run :=
  Indexer.final
    (Indexer.processDirectory Samples.digest Samples.extractTitle
       Samples.extractContent (lit "2025-01-01 10:00:00") None Samples.tree
       (Indexer.mkRun [] 0 0)).

End MoreSamples.

(* ================================================================= *)
(** * Properties *)

(** ** JavaScript strings *)

Lemma js_eqb_eq (a b : jsstring) : Js.eqb a b = true <-> a = b.
Proof.
  revert b; induction a as [|x a IH]; intros [|y b]; simpl;
    try (split; [discriminate | congruence]); [tauto|].
  unfold char_eqb; rewrite andb_true_iff, N.eqb_eq, IH.
  split; [intros [-> ->]; reflexivity | intros H; inversion H; auto].
Qed.

Lemma js_eqb_refl (a : jsstring) : Js.eqb a a = true.
Proof. apply js_eqb_eq; reflexivity. Qed.

Lemma js_eqb_neq (a b : jsstring) : Js.eqb a b = false <-> a <> b.
Proof.
  rewrite <- js_eqb_eq. destruct (Js.eqb a b); split; congruence.
Qed.

Lemma trimStart_Forall (P : char -> Prop) (s : jsstring) :
  Forall P s -> Forall P (trimStart s).
Proof.
  induction 1 as [|c r Hc Hr IH]; simpl; [constructor|].
  destruct (is_ws c); [exact IH | constructor; assumption].
Qed.

Lemma trimEnd_Forall (P : char -> Prop) (s : jsstring) :
  Forall P s -> Forall P (trimEnd s).
Proof.
  induction 1 as [|c r Hc Hr IH]; simpl; [constructor|].
  destruct (is_ws c && is_empty (trimEnd r)); constructor; assumption.
Qed.

Lemma trim_Forall (P : char -> Prop) (s : jsstring) :
  Forall P s -> Forall P (trim s).
Proof. intros H; apply trimEnd_Forall, trimStart_Forall, H. Qed.

Lemma starts_clean_trimStart (s : jsstring) : starts_clean (trimStart s) = true.
Proof.
  induction s as [|c r IH]; simpl; [reflexivity|].
  destruct (is_ws c) eqn:E; [exact IH | simpl; rewrite E; reflexivity].
Qed.

Lemma starts_clean_trimEnd (s : jsstring) :
  starts_clean s = true -> starts_clean (trimEnd s) = true.
Proof.
  destruct s as [|c r]; simpl; [reflexivity|].
  intros H. apply negb_true_iff in H. rewrite H. simpl. rewrite H. reflexivity.
Qed.

Lemma trimStart_clean (s : jsstring) : starts_clean s = true -> trimStart s = s.
Proof.
  destruct s as [|c r]; simpl; [reflexivity|].
  intros H. apply negb_true_iff in H. rewrite H. reflexivity.
Qed.

Lemma trimEnd_idempotent (s : jsstring) : trimEnd (trimEnd s) = trimEnd s.
Proof.
  induction s as [|c r IH]; simpl; [reflexivity|].
  destruct (is_ws c && is_empty (trimEnd r)) eqn:E; [reflexivity|].
  simpl. rewrite IH, E. reflexivity.
Qed.

Lemma trim_idempotent (s : jsstring) : trim (trim s) = trim s.
Proof.
  unfold trim.
  rewrite (trimStart_clean (trimEnd (trimStart s))).
  - apply trimEnd_idempotent.
  - apply starts_clean_trimEnd, starts_clean_trimStart.
Qed.

Lemma single_spaced_collapse (s : jsstring) (b : bool) :
  single_spaced_from b (collapse_ws_from b s) = true.
Proof.
  revert b; induction s as [|c r IH]; intros b; simpl; [reflexivity|].
  destruct (is_ws c) eqn:E.
  - destruct b; [apply IH|].
    simpl. rewrite IH. reflexivity.
  - simpl. rewrite E. apply IH.
Qed.

Lemma collapse_single_spaced (s : jsstring) (b : bool) :
  single_spaced_from b s = true -> collapse_ws_from b s = s.
Proof.
  revert b; induction s as [|c r IH]; intros b; simpl; [reflexivity|].
  destruct (is_ws c).
  - rewrite !andb_true_iff, negb_true_iff, N.eqb_eq.
    intros [[-> ->] H]. rewrite (IH _ H). reflexivity.
  - intros H. rewrite (IH _ H). reflexivity.
Qed.

Lemma single_spaced_weaken (s : jsstring) (b : bool) :
  single_spaced_from b s = true -> single_spaced_from false s = true.
Proof.
  destruct s as [|c r]; simpl; [reflexivity|].
  destruct (is_ws c); [|tauto].
  rewrite !andb_true_iff. intros [[_ H1] H2]. auto.
Qed.

Lemma single_spaced_trimStart (s : jsstring) (b : bool) :
  single_spaced_from b s = true -> single_spaced_from false (trimStart s) = true.
Proof.
  revert b; induction s as [|c r IH]; intros b; simpl; [reflexivity|].
  destruct (is_ws c) eqn:E.
  - rewrite !andb_true_iff. intros [_ H]. apply (IH _ H).
  - intros H. simpl. rewrite E. exact H.
Qed.

Lemma single_spaced_trimEnd (s : jsstring) (b : bool) :
  single_spaced_from b s = true -> single_spaced_from b (trimEnd s) = true.
Proof.
  revert b; induction s as [|c r IH]; intros b; simpl; [reflexivity|].
  destruct (is_ws c) eqn:E; simpl.
  - rewrite !andb_true_iff. intros [[H1 H2] H3].
    destruct (is_empty (trimEnd r)); simpl; [reflexivity|].
    rewrite E, H1, H2, (IH _ H3). reflexivity.
  - intros H. rewrite E. apply (IH _ H).
Qed.

Lemma single_spaced_trim (s : jsstring) :
  single_spaced_from false s = true -> single_spaced_from false (trim s) = true.
Proof.
  intros H. apply single_spaced_trimEnd.
  apply (single_spaced_trimStart _ _ H).
Qed.

(** ** The query sanitizer *)

Section SanitizerFacts.

Import Sanitizer.

Local Open Scope N_scope.

(** Turns the boolean character tests of a goal and its hypotheses into
    linear arithmetic over code units. *)
Ltac char_arith :=
  unfold is_safe, is_kept, is_alnum, is_ws, is_dot, is_paren, is_star,
    is_qmark, is_brace, is_bracket, in_range, space in *;
  repeat match goal with
    | H : _ = false |- _ => apply not_true_iff_false in H
    | |- _ = false => apply not_true_iff_false
    end;
  rewrite ?orb_true_iff, ?andb_true_iff, ?N.eqb_eq, ?N.leb_le in *;
  lia.

Lemma safe_is_kept (c : char) : is_safe c = true -> is_kept c = true.
Proof. intros H. char_arith. Qed.

Lemma kept_not_ws_is_safe (c : char) :
  is_kept c = true -> is_ws c = false -> is_safe c = true.
Proof. intros H1 H2. char_arith. Qed.

Lemma space_is_safe : is_safe space = true.
Proof. reflexivity. Qed.

Lemma safe_ws_is_space (c : char) :
  is_safe c = true -> is_ws c = true -> c = space.
Proof. intros H1 H2. char_arith. Qed.

Lemma safe_not_operator (c : char) :
  is_safe c = true ->
  is_dot c = false /\ is_paren c = false /\ is_star c = false /\
  is_qmark c = false /\ is_brace c = false /\ is_bracket c = false.
Proof. intros H. repeat split; char_arith. Qed.

Lemma remove_class_Forall (P : char -> Prop) (cls : char -> bool) (s : jsstring) :
  Forall P s -> Forall P (remove_class cls s).
Proof.
  unfold remove_class. rewrite !Forall_forall. intros H c Hc.
  apply filter_In in Hc. apply H, Hc.
Qed.

Lemma remove_class_none (cls : char -> bool) (s : jsstring) :
  Forall (fun c => cls c = false) s -> remove_class cls s = s.
Proof.
  unfold remove_class.
  induction 1 as [|c r Hc Hr IH]; simpl; [reflexivity|].
  rewrite Hc. simpl. rewrite IH. reflexivity.
Qed.

Lemma replace_outside_kept (s : jsstring) :
  Forall (fun c => is_kept c = true) (replace_outside is_kept s).
Proof.
  unfold replace_outside. apply Forall_forall. intros c Hc.
  apply in_map_iff in Hc. destruct Hc as [x [<- _]].
  destruct (is_kept x) eqn:E; [exact E | reflexivity].
Qed.

Lemma replace_outside_none (s : jsstring) :
  Forall (fun c => is_kept c = true) s -> replace_outside is_kept s = s.
Proof.
  unfold replace_outside.
  induction 1 as [|c r Hc Hr IH]; simpl; [reflexivity|].
  rewrite Hc, IH. reflexivity.
Qed.

Lemma collapse_safe (s : jsstring) (b : bool) :
  Forall (fun c => is_kept c = true) s ->
  Forall (fun c => is_safe c = true) (collapse_ws_from b s).
Proof.
  intros H. revert b. induction H as [|c r Hc Hr IH]; intros b; simpl.
  - constructor.
  - destruct (is_ws c) eqn:E.
    + destruct b; [apply IH | constructor; [apply space_is_safe | apply IH]].
    + constructor; [apply kept_not_ws_is_safe; assumption | apply IH].
Qed.

Lemma sanitize_safe (q : jsstring) :
  Forall (fun c => is_safe c = true) (sanitizeSearchQuery q).
Proof.
  unfold sanitizeSearchQuery, collapse_ws.
  apply trim_Forall, collapse_safe, replace_outside_kept.
Qed.

Lemma sanitize_single_spaced (q : jsstring) :
  single_spaced_from false (sanitizeSearchQuery q) = true.
Proof.
  unfold sanitizeSearchQuery, collapse_ws.
  apply single_spaced_trim, single_spaced_collapse.
Qed.

(** A string of safe characters, single-spaced and trimmed, is a fixed
    point of the sanitizer. *)
Lemma sanitize_fixed (s : jsstring) :
  Forall (fun c => is_safe c = true) s ->
  single_spaced_from false s = true ->
  trim s = s ->
  sanitizeSearchQuery s = s.
Proof.
  intros Hsafe Hsp Htrim. unfold sanitizeSearchQuery.
  assert (Hop : forall cls,
             (forall c, is_safe c = true -> cls c = false) ->
             remove_class cls s = s).
  { intros cls Hcls. apply remove_class_none.
    eapply Forall_impl; [|exact Hsafe]. exact Hcls. }
  rewrite (Hop is_dot) by (intros c Hc; apply (safe_not_operator c Hc)).
  rewrite (Hop is_paren) by (intros c Hc; apply (safe_not_operator c Hc)).
  rewrite (Hop is_star) by (intros c Hc; apply (safe_not_operator c Hc)).
  rewrite (Hop is_qmark) by (intros c Hc; apply (safe_not_operator c Hc)).
  rewrite (Hop is_brace) by (intros c Hc; apply (safe_not_operator c Hc)).
  rewrite (Hop is_bracket) by (intros c Hc; apply (safe_not_operator c Hc)).
  rewrite replace_outside_none
    by (eapply Forall_impl; [|exact Hsafe]; exact safe_is_kept).
  unfold collapse_ws. rewrite (collapse_single_spaced _ _ Hsp).
  exact Htrim.
Qed.

(** C3. Whatever the input, the output of the sanitizer holds only ASCII
    letters, digits, white space, underscores and hyphens (the only white
    space left being the space), and none of the characters
    [. ( ) * ? { } [ ]]. *)
Theorem sanitize_output_safe (q : jsstring) :
  Forall (fun c => is_alnum c = true \/ is_ws c = true \/ c = 95 \/ c = 45)
    (sanitizeSearchQuery q)
  /\ Forall (fun c => is_safe c = true) (sanitizeSearchQuery q)
  /\ forall c, In c operators -> ~ In c (sanitizeSearchQuery q).
Proof.
  pose proof (sanitize_safe q) as Hsafe.
  split; [|split].
  - eapply Forall_impl; [|exact Hsafe].
    intros c Hc. apply safe_is_kept in Hc. unfold is_kept in Hc.
    rewrite !orb_true_iff, !N.eqb_eq in Hc. tauto.
  - exact Hsafe.
  - intros c Hop Hin.
    rewrite Forall_forall in Hsafe. specialize (Hsafe c Hin).
    unfold operators in Hop. simpl in Hop.
    repeat (destruct Hop as [<- | Hop]; [discriminate Hsafe|]).
    exact Hop.
Qed.

(** C7. The sanitizer is idempotent. *)
Theorem sanitize_idempotent (q : jsstring) :
  sanitizeSearchQuery (sanitizeSearchQuery q) = sanitizeSearchQuery q.
Proof.
  apply sanitize_fixed.
  - apply sanitize_safe.
  - apply sanitize_single_spaced.
  - unfold sanitizeSearchQuery. apply trim_idempotent.
Qed.

End SanitizerFacts.

(** ** The search engine *)

Section SearchFacts.

Import Store Search.

Variable fts_match : jsstring -> option (DocumentRow -> option Q).
Variable fts_snippet : jsstring -> DocumentRow -> jsstring.

Lemma Forall_firstn (A : Type) (P : A -> Prop) (n : nat) (l : list A) :
  Forall P l -> Forall P (firstn n l).
Proof.
  intros H. rewrite <- (firstn_skipn n l) in H.
  apply Forall_app in H. apply H.
Qed.

Lemma Forall_skipn (A : Type) (P : A -> Prop) (n : nat) (l : list A) :
  Forall P l -> Forall P (skipn n l).
Proof.
  intros H. rewrite <- (firstn_skipn n l) in H.
  apply Forall_app in H. apply H.
Qed.

Lemma insert_hit_Forall (P : Hit -> Prop) (h : Hit) (l : list Hit) :
  P h -> Forall P l -> Forall P (insert_hit h l).
Proof.
  intros Hh. induction 1 as [|x r Hx Hr IH]; simpl.
  - constructor; [assumption | constructor].
  - destruct (Qle_bool (h_rank h) (h_rank x)); repeat constructor; assumption.
Qed.

Lemma order_by_rank_Forall (P : Hit -> Prop) (l : list Hit) :
  Forall P l -> Forall P (order_by_rank l).
Proof.
  unfold order_by_rank. induction 1 as [|x r Hx Hr IH]; simpl.
  - constructor.
  - apply insert_hit_Forall; assumption.
Qed.

Lemma limit_offset_Forall (P : Hit -> Prop) (limit offset : Z) (l : list Hit) :
  Forall P l -> Forall P (limit_offset limit offset l).
Proof.
  intros H. unfold limit_offset.
  destruct (limit <? 0); [|apply Forall_firstn]; apply Forall_skipn, H.
Qed.

Lemma limit_offset_length (limit offset : Z) (l : list Hit) :
  0 <= limit ->
  Z.of_nat (List.length (limit_offset limit offset l)) <= limit.
Proof.
  intros H. unfold limit_offset.
  destruct (limit <? 0) eqn:E; [apply Z.ltb_lt in E; lia|].
  pose proof (firstn_le_length (Z.to_nat limit) (skipn (Z.to_nat offset) l)).
  lia.
Qed.

Lemma hits_of_rows (s : Statement) (rank : DocumentRow -> option Q)
    (t : table) :
  Forall (fun h => In (h_row h) t
                   /\ where_clause s (h_row h) = true
                   /\ rank (h_row h) = Some (h_rank h)
                   /\ h_snippet h = fts_snippet (s_match s) (h_row h))
    (hits_of fts_snippet s rank t).
Proof.
  unfold hits_of. apply Forall_forall. intros h Hh.
  apply in_flat_map in Hh. destruct Hh as [d [Hd Hin]].
  apply filter_In in Hd. destruct Hd as [Ht Hd].
  destruct (rank d) as [r|] eqn:E; simpl in Hin; [|contradiction].
  destruct Hin as [<- | []]. simpl. auto.
Qed.

Lemma sanitized_trimmed (q : jsstring) :
  trim (Sanitizer.sanitizeSearchQuery q) = Sanitizer.sanitizeSearchQuery q.
Proof. unfold Sanitizer.sanitizeSearchQuery. apply trim_idempotent. Qed.

(** The ways a search ends. *)
Lemma search_cases (t : table) (o : SearchOptions) :
  let q := Sanitizer.sanitizeSearchQuery (o_query o) in
  let s := build_statement q o in
  search fts_match fts_snippet t o
  = match q with
    | [] => mkOutcome (Ok []) []
    | _ :: _ =>
        match fts_match q with
        | None => mkOutcome Throw [s]
        | Some rank =>
            if int64 (s_limit s) && int64 (s_offset s)
            then mkOutcome
                   (Ok (List.map to_result
                          (limit_offset (s_limit s) (s_offset s)
                             (order_by_rank (hits_of fts_snippet s rank t)))))
                   [s]
            else mkOutcome Throw [s]
        end
    end.
Proof.
  intros q s. unfold search. rewrite sanitized_trimmed. fold q.
  destruct q as [|c r] eqn:Eq; [reflexivity|]. simpl truthy. simpl negb.
  cbv iota. fold s. unfold run_statement.
  replace (s_match s) with q by (rewrite Eq; reflexivity). rewrite Eq.
  destruct (fts_match (c :: r)); [|reflexivity].
  destruct (int64 (s_limit s) && int64 (s_offset s)); reflexivity.
Qed.

(** C4. When the sanitized query is empty, [search] returns the empty list
    as its value (it does not throw) and runs no statement against the
    store. *)
Theorem search_empty_query (t : table) (o : SearchOptions) :
  Sanitizer.sanitizeSearchQuery (o_query o) = [] ->
  search fts_match fts_snippet t o = mkOutcome (Ok []) [].
Proof.
  intros H. unfold search. rewrite H. reflexivity.
Qed.

(** C8. A search with a type filter [ty] other than ['all'] and a limit
    [L] that returns a list: every result has the type [ty] and a score
    that is not negative, the absolute value of the rank that the engine
    gave, for the sanitized query, to the row of the table the result is
    read from; and when [L] is not negative the list has at most [L]
    results. *)
Theorem search_typed_results (t : table) (o : SearchOptions) (ty : jsstring)
    (results : list SearchResult) :
  o_type o = Some ty ->
  ty <> lit "all" ->
  returned (search fts_match fts_snippet t o) = Ok results ->
  (0 <= default 10 (o_limit o) ->
   Z.of_nat (List.length results) <= default 10 (o_limit o))
  /\ Forall (fun r => r_type r = ty) results
  /\ Forall (fun r => (0 <= r_score r)%Q) results
  /\ Forall (fun r => exists rank d x,
                fts_match (Sanitizer.sanitizeSearchQuery (o_query o))
                = Some rank
                /\ In d t /\ r_id r = id d /\ type d = ty
                /\ rank d = Some x /\ r_score r = Qabs x)
       results.
Proof.
  intros Hty Hall. rewrite search_cases.
  destruct (Sanitizer.sanitizeSearchQuery (o_query o)) as [|c q'] eqn:Eq;
    simpl.
  { intros H. injection H as <-.
    split; [intros; simpl; assumption|]. repeat split; constructor. }
  destruct (fts_match (c :: q')) as [rank|] eqn:Em; simpl; [|discriminate].
  destruct (int64 (default 10 (o_limit o)) && int64 (default 0 (o_offset o)));
    simpl; [|discriminate].
  intros H. injection H as <-.
  split; [|split; [|split]].
  - intros Hlimit. rewrite length_map. apply limit_offset_length, Hlimit.
  - apply Forall_map, limit_offset_Forall, order_by_rank_Forall.
    eapply Forall_impl; [|apply hits_of_rows].
    intros h [_ [Hw _]]. simpl.
    unfold where_clause, build_statement in Hw. simpl in Hw. rewrite Hty in Hw.
    simpl in Hw. apply js_eqb_neq in Hall. rewrite Hall in Hw.
    rewrite !andb_true_iff in Hw. apply js_eqb_eq. tauto.
  - apply Forall_map. apply Forall_forall. intros h _. simpl.
    apply Qabs_nonneg.
  - apply Forall_map, limit_offset_Forall, order_by_rank_Forall.
    eapply Forall_impl; [|apply hits_of_rows].
    intros h [Hin [Hw [Hr _]]]. exists rank, (h_row h), (h_rank h).
    unfold where_clause, build_statement in Hw. simpl in Hw. rewrite Hty in Hw.
    simpl in Hw. apply js_eqb_neq in Hall. rewrite Hall in Hw.
    rewrite !andb_true_iff in Hw.
    split; [reflexivity|]. split; [exact Hin|]. split; [reflexivity|].
    split; [apply js_eqb_eq; tauto|]. split; [exact Hr | reflexivity].
Qed.

End SearchFacts.

Import Store Search.

(** An instance of C4: the query ["..."] on the sample table. *)
Lemma search_empty_query_witness :
  Sanitizer.sanitizeSearchQuery (o_query (Samples.options "..." None None)) = []
  /\ search Samples.fts_match Samples.fts_snippet Samples.docs
       (Samples.options "..." None None) = mkOutcome (Ok []) [].
Proof.
  split.
  - reflexivity.
  - apply search_empty_query. reflexivity.
Defined.

(** An instance of C8: the query ["Rigidbody"] with type ['manual'] and
    limit 5 on the sample table. *)
Lemma search_typed_results_witness :
  let o := Samples.options "Rigidbody" (Some 5) (Some "manual"%string) in
  let results :=
    match returned (search Samples.fts_match Samples.fts_snippet Samples.docs o)
    with Ok rs => rs | Throw => [] end in
  List.map r_id results = [lit "a1"; lit "c3"]
  /\ Z.of_nat (List.length results) <= 5
  /\ Forall (fun r => r_type r = lit "manual") results
  /\ Forall (fun r => (0 <= r_score r)%Q) results.
Proof.
  intros o results.
  split; [reflexivity|].
  assert (H := search_typed_results Samples.fts_match Samples.fts_snippet
                 Samples.docs o (lit "manual") results).
  destruct H as [H1 [H2 [H3 _]]].
  - reflexivity.
  - discriminate.
  - reflexivity.
  - split; [apply H1; simpl; lia|]. auto.
Defined.

(** The same search with the limit -1: the statement runs with
    [LIMIT -1], which SQLite reads as no limit, and the search returns
    both manual pages that match, of the type asked for; two results are
    more than the limit. *)
Lemma search_negative_limit :
  let o := Samples.options "Rigidbody" (Some (-1)) (Some "manual"%string) in
  exists results,
    o_type o = Some (lit "manual")
    /\ returned (search Samples.fts_match Samples.fts_snippet Samples.docs o)
       = Ok results
    /\ List.map r_id results = [lit "a1"; lit "c3"]
    /\ ~ Z.of_nat (List.length results) <= default 10 (o_limit o).
Proof.
  intros o. eexists. split; [reflexivity|]. split; [reflexivity|].
  split; [reflexivity|]. simpl. lia.
Qed.

(** ** Pagination *)

Section PaginationFacts.

Import Pagination.

Lemma substring_window (s : jsstring) (offset limit : Z) :
  0 <= offset -> 0 <= limit ->
  substring s offset (offset + limit)
  = firstn (Z.to_nat limit) (skipn (Z.to_nat offset) s).
Proof.
  intros Ho Hl. unfold substring, clamp.
  set (len := Z.of_nat (List.length s)).
  assert (Hlen : List.length s = Z.to_nat len) by (unfold len; lia).
  destruct (Z_lt_le_dec offset len) as [Hlt | Hge].
  - rewrite (Z.max_l offset 0), (Z.min_l offset len) by lia.
    rewrite (Z.max_l (offset + limit) 0) by lia.
    destruct (Z_le_gt_dec (offset + limit) len) as [Hin | Hout].
    + rewrite (Z.min_l (offset + limit) len) by lia.
      rewrite Z.min_l, Z.max_r by lia.
      f_equal. lia.
    + rewrite (Z.min_r (offset + limit) len) by lia.
      rewrite Z.min_l, Z.max_r by lia.
      rewrite !firstn_all2; try reflexivity; rewrite length_skipn; lia.
  - rewrite (Z.max_l offset 0), (Z.min_r offset len) by lia.
    rewrite (Z.max_l (offset + limit) 0), (Z.min_r (offset + limit) len) by lia.
    rewrite Z.min_id, Z.max_id, Z.sub_diag. simpl.
    rewrite (skipn_all2 s) by lia. rewrite firstn_nil. reflexivity.
Qed.

Lemma skipn_add (A : Type) (n m : nat) (l : list A) :
  skipn (n + m) l = skipn m (skipn n l).
Proof.
  revert l; induction n as [|n IH]; intros l; simpl; [reflexivity|].
  destruct l as [|x l]; [rewrite skipn_nil; reflexivity | apply IH].
Qed.



Variable extractTitle : jsstring -> jsstring.
Variable extractContent : jsstring -> jsstring.
Variable extractCodeBlocks : jsstring -> list jsstring.
Variable extracted_file : jsstring -> option readFile_result.
Variable unityVersion : jsstring.

(** The page of a stored document is the one [paginate] computes from its
    [content] column. *)
Lemma read_unity_doc_stored (t : table) (path : jsstring) (offset limit : Z)
    (doc : DocumentRow) :
  get_by_path path (lit "6000.1") t = Some doc ->
  read_unity_doc extractTitle extractContent extractCodeBlocks extracted_file
    unityVersion t path offset limit
  = Shown (db_header unityVersion doc) (paginate (content doc) offset limit)
      (extractCodeBlocks (html doc)).
Proof.
  intros H. unfold read_unity_doc. rewrite H. reflexivity.
Qed.

Lemma substring_past_end (s : jsstring) (start end_ : Z) :
  Z.of_nat (List.length s) <= start ->
  Z.of_nat (List.length s) <= end_ ->
  substring s start end_ = [].
Proof.
  intros Hs He. unfold substring.
  assert (Ea : clamp (Z.of_nat (List.length s)) start
               = Z.of_nat (List.length s)) by (unfold clamp; lia).
  assert (Eb : clamp (Z.of_nat (List.length s)) end_
               = Z.of_nat (List.length s)) by (unfold clamp; lia).
  rewrite Ea, Eb, Z.max_id, Z.min_id, Z.sub_diag. reflexivity.
Qed.

(** C10. For a stored document and an offset at or beyond the length of
    its content, [read_unity_doc] answers with a page of the document (a
    normal response, whatever the limit is).  When [offset + limit] is at
    or beyond that length too, as it is for every limit that is not
    negative, the chunk is empty, [hasMore] is false, and the text after
    the chunk reports the complete content as shown; when [offset + limit]
    is below the length, [hasMore] is true. *)
Theorem read_past_end (t : table) (path : jsstring) (offset limit : Z)
    (doc : DocumentRow) :
  get_by_path path (lit "6000.1") t = Some doc ->
  Z.of_nat (List.length (content doc)) <= offset ->
  exists header page codeBlocks,
    read_unity_doc extractTitle extractContent extractCodeBlocks extracted_file
      unityVersion t path offset limit = Shown header page codeBlocks
    /\ (Z.of_nat (List.length (content doc)) <= offset + limit ->
        contentChunk page = []
        /\ hasMore page = false
        /\ trailer page
           = nl ++ nl ++ lit "**Complete content shown** ("
             ++ of_Z (Z.of_nat (List.length (content doc)))
             ++ lit " characters)")
    /\ (offset + limit < Z.of_nat (List.length (content doc)) ->
        hasMore page = true).
Proof.
  intros Hdoc Hoff.
  exists (db_header unityVersion doc), (paginate (content doc) offset limit),
    (extractCodeBlocks (html doc)).
  split; [apply read_unity_doc_stored, Hdoc|]. split.
  - intros Hend.
    assert (Hmore : hasMore (paginate (content doc) offset limit) = false).
    { simpl. apply Z.ltb_ge. exact Hend. }
    split; [|split].
    + simpl. apply substring_past_end; assumption.
    + exact Hmore.
    + unfold trailer. rewrite Hmore. reflexivity.
  - intros Hbelow. simpl. apply Z.ltb_lt. exact Hbelow.
Qed.

End PaginationFacts.

(** ** The section extractor *)

Section SectionFacts.

Import Sections.

(** Induction on a DOM tree, with the hypothesis for every child. *)
Lemma node_induction (P : node -> Prop) :
  (forall s, P (Text s)) ->
  (forall tag kids, Forall P kids -> P (Elem tag kids)) ->
  forall n, P n.
Proof.
  intros HText HElem.
  fix IH 1. intros [s | tag kids].
  - apply HText.
  - apply HElem. induction kids as [|c r IHr]; constructor.
    + apply IH.
    + apply IHr.
Qed.

Lemma position_eqb_eq (p q : position) : position_eqb p q = true <-> p = q.
Proof.
  revert q; induction p as [|a p IH]; intros [|b q]; simpl;
    try (split; [discriminate | congruence]); [tauto|].
  rewrite andb_true_iff, Nat.eqb_eq, IH.
  split; [intros [-> ->]; reflexivity | intros H; inversion H; auto].
Qed.

Lemma node_at_app (n : node) (p q : position) :
  node_at n (p ++ q)
  = match node_at n p with Some m => node_at m q | None => None end.
Proof.
  revert n; induction p as [|k p IH]; intros n; simpl; [reflexivity|].
  destruct n as [s | tag kids]; [reflexivity|].
  destruct (nth_error kids k); [apply IH | reflexivity].
Qed.

(** The siblings [.next()] visits are children of the same parent. *)
Lemma sibling_elements_at (parent : position) (l : list node) (k : nat)
    (q : position) (m : node) :
  In (q, m) (sibling_elements parent k l) ->
  exists j, q = parent ++ [(k + j)%nat] /\ nth_error l j = Some m.
Proof.
  revert k; induction l as [|c r IH]; intros k; simpl; [contradiction|].
  assert (Hr : In (q, m) (sibling_elements parent (S k) r) ->
               exists j, q = parent ++ [(k + j)%nat]
                         /\ nth_error (c :: r) j = Some m).
  { intros H. destruct (IH _ H) as [j [Hq Hj]].
    exists (S j). split; [rewrite Hq; do 2 f_equal; lia | exact Hj]. }
  destruct c as [s | tag kids]; [exact Hr|].
  intros [H | H]; [|exact (Hr H)].
  injection H as <- <-. exists O. split; [do 2 f_equal; lia | reflexivity].
Qed.

Lemma located_child (here : position) (tag : jsstring) (kids : list node)
    (k : nat) (c : node) (h : Heading) :
  nth_error kids k = Some c ->
  located (here ++ [k]) c h ->
  located here (Elem tag kids) h.
Proof.
  intros Hk [[p [Hp Hn]] [Hh Hf]]. split; [|split].
  - exists (k :: p). split.
    + rewrite Hp, <- app_assoc. reflexivity.
    + simpl. rewrite Hk. exact Hn.
  - exact Hh.
  - intros q m Hq. destruct (Hf q m Hq) as [p' [-> Hm]].
    exists (k :: p'). split.
    + rewrite <- app_assoc. reflexivity.
    + simpl. rewrite Hk. exact Hm.
Qed.

Lemma headings_among_located (here : position) (tag : jsstring)
    (kids : list node) :
  Forall (fun c => forall here' h,
            In h (headings_below here' c) -> located here' c h) kids ->
  forall l k h,
    (forall j c, nth_error l j = Some c -> nth_error kids (k + j) = Some c) ->
    In h (headings_among headings_below here k l) ->
    located here (Elem tag kids) h.
Proof.
  intros Hkids. induction l as [|c r IH]; intros k h Hsub; simpl;
    [contradiction|].
  assert (Hc : nth_error kids k = Some c).
  { specialize (Hsub O c eq_refl). rewrite Nat.add_0_r in Hsub. exact Hsub. }
  rewrite !in_app_iff. intros [Hown | [Hbelow | Hrest]].
  - destruct c as [s | t ks]; [contradiction|].
    destruct (heading_level t) as [lv|] eqn:Elv; [|contradiction].
    destruct Hown as [<- | []]. simpl. split; [|split].
    + exists [k]. split; [reflexivity|]. simpl. rewrite Hc. reflexivity.
    + simpl. rewrite Elv. reflexivity.
    + intros q m Hq. apply sibling_elements_at in Hq.
      destruct Hq as [j [-> Hj]]. exists [(S k + j)%nat].
      split; [reflexivity|].
      specialize (Hsub (S j) m Hj).
      replace (k + S j)%nat with (S k + j)%nat in Hsub by lia.
      unfold node_at. rewrite Hsub. reflexivity.
  - eapply located_child; [exact Hc|].
    rewrite Forall_forall in Hkids.
    apply (Hkids c); [eapply nth_error_In; exact Hc | exact Hbelow].
  - apply (IH (S k) h); [|exact Hrest].
    intros j c' Hj. specialize (Hsub (S j) c' Hj).
    replace (S k + j)%nat with (k + S j)%nat by lia. exact Hsub.
Qed.

Lemma headings_below_located (n : node) :
  forall here h, In h (headings_below here n) -> located here n h.
Proof.
  induction n as [s | tag kids IH] using node_induction; intros here h; simpl.
  - contradiction.
  - apply (headings_among_located here tag kids IH kids O h).
    intros j c Hj. exact Hj.
Qed.

(** Every heading of the array sits in the document where its position
    says, and so do the siblings after it. *)
Lemma headings_located (root : node) (h : Heading) :
  In h (headings root) ->
  node_at root (h_position h) = Some (h_element h)
  /\ is_heading (h_element h) = true
  /\ forall q m, In (q, m) (h_following h) -> node_at root q = Some m.
Proof.
  intros H. apply headings_below_located in H.
  destruct H as [[p [Hp Hn]] [Hh Hf]]. simpl in Hp. subst p.
  split; [exact Hn|]. split; [exact Hh|].
  intros q m Hq. destruct (Hf q m Hq) as [p [-> Hm]]. exact Hm.
Qed.

(** The test against [nextHeading] never ends the loop on its own: the
    sibling it recognises is a heading, which ends the loop anyway. *)
Lemma accumulate_lines (nextHeading : option Heading)
    (following : list (position * node)) (sectionContent : jsstring) :
  (forall q m, In (q, m) following ->
     is_node q nextHeading = true -> is_heading m = true) ->
  accumulate nextHeading following sectionContent
  = sectionContent ++ lines_until_heading following.
Proof.
  revert sectionContent.
  induction following as [|[q m] r IH]; intros acc Hnext; simpl.
  - rewrite app_nil_r. reflexivity.
  - destruct (is_node q nextHeading) eqn:En.
    + rewrite (Hnext q m (or_introl eq_refl) En), app_nil_r. reflexivity.
    + destruct (is_heading m); [rewrite app_nil_r; reflexivity|].
      rewrite IH by (intros q' m' H; apply Hnext; right; exact H).
      destruct (truthy (trim (text m))); [|reflexivity].
      rewrite <- !app_assoc. reflexivity.
Qed.

Lemma sections_from_nth (hs : list Heading) (start index : nat) (h : Heading) :
  nth_error hs index = Some h ->
  nth_error (sections_from start hs) index
  = Some (section_of (start + index) h (skipn (S index) hs)).
Proof.
  revert start index; induction hs as [|x r IH]; intros start [|index]; simpl;
    try discriminate.
  - intros H. injection H as <-. rewrite Nat.add_0_r. reflexivity.
  - intros H. rewrite (IH (S start) index H).
    replace (S start + index)%nat with (start + S index)%nat by lia.
    reflexivity.
Qed.

(** C2, amended. The section for the heading at index [i] has the id
    [section-i], the trimmed text of the heading as title, its level, and
    as content the title, a blank line, and the trimmed text of each
    sibling element after the heading that has text, one per line, up to
    the first such sibling that is a heading of any level or to the last
    sibling, the whole trimmed. *)
Theorem section_content (root : node) (index : nat) (heading : Heading) :
  nth_error (headings root) index = Some heading ->
  nth_error (extractSections root) index
  = Some (mkSection (lit "section-" ++ of_Z (Z.of_nat index))
            (trim (text (h_element heading))) (h_level heading) 0 0
            (content_of heading)).
Proof.
  intros H. unfold extractSections.
  rewrite (sections_from_nth _ O _ _ H).
  change (O + index)%nat with index.
  unfold section_of, content_of.
  rewrite accumulate_lines.
  - rewrite <- !app_assoc. reflexivity.
  - intros q m Hq Hnode.
    destruct (find_nextHeading (h_level heading)
                (skipn (S index) (headings root))) as [h'|] eqn:E;
      [|simpl in Hnode; discriminate].
    simpl in Hnode. apply position_eqb_eq in Hnode.
    unfold find_nextHeading in E. apply find_some in E. destruct E as [E _].
    assert (Hin' : In h' (headings root)).
    { rewrite <- (firstn_skipn (S index) (headings root)).
      apply in_or_app. right. exact E. }
    destruct (headings_located root h' Hin') as [Hat [Hhead _]].
    destruct (headings_located root heading (nth_error_In _ _ H))
      as [_ [_ Hfol]].
    specialize (Hfol q m Hq). rewrite Hnode, Hat in Hfol.
    injection Hfol as <-. exact Hhead.
Qed.

End SectionFacts.

Import Sections.

(** An instance of the amended C2: the first heading of the sample page. *)
Lemma section_content_witness :
  let heading :=
    mkHeading [O] 1 (Samples.element "h1" "Rigidbody")
      (sibling_elements [] 1
         [Samples.element "p" " Physics for an object. ";
          Samples.element "h2" "Mass"; Samples.element "p" "In kilograms.";
          Samples.element "h2" "Drag"; Samples.element "p" "Air resistance."]) in
  nth_error (headings Samples.page) O = Some heading
  /\ nth_error (extractSections Samples.page) O
     = Some (mkSection (lit "section-0") (lit "Rigidbody") 1 0 0
               (lit "Rigidbody" ++ nl ++ nl ++ lit "Physics for an object.")).
Proof.
  intros heading. split.
  - reflexivity.
  - exact (section_content Samples.page O heading eq_refl).
Defined.

(** C2 as stated fails.  On a page made of a heading [A] and a paragraph
    [x], the text strictly between the heading and the end of the document
    is [x], while the content of the section is the title, a blank line
    and [x]: the title is part of it.  On the sample page, the text between
    the first heading and the end of the document runs through both
    subsections, while the content of the section stops at the first
    subsection. *)
Lemma section_content_includes_title :
  spec_contents (items Samples.short_page) = [lit "x"]
  /\ List.map s_content (extractSections Samples.short_page)
     = [lit "A" ++ nl ++ nl ++ lit "x"]
  /\ List.map s_content (extractSections Samples.short_page)
     <> spec_contents (items Samples.short_page)
  /\ nth_error (List.map s_content (extractSections Samples.page)) O
     = Some (lit "Rigidbody" ++ nl ++ nl ++ lit "Physics for an object.")
  /\ nth_error (spec_contents (items Samples.page)) O
     = Some (lit " Physics for an object. MassIn kilograms.DragAir resistance.").
Proof.
  repeat split; try reflexivity. discriminate.
Qed.

(** ** The document store *)

Section StoreFacts.

Import Store.

Lemma type_check_closed (ty : jsstring) :
  type_check ty = true -> In ty document_types.
Proof.
  unfold type_check, document_types. simpl.
  rewrite !orb_true_iff, !js_eqb_eq. intros [-> | [-> | H]]; auto.
  discriminate.
Qed.

Lemma has_id_In (i : jsstring) (t : table) :
  has_id i t = true <-> In i (ids t).
Proof.
  unfold has_id, ids. rewrite existsb_exists, in_map_iff.
  split; intros [d [H1 H2]]; exists d.
  - apply js_eqb_eq in H2. auto.
  - rewrite js_eqb_eq. auto.
Qed.

(** The table only ever holds types the [CHECK] admits. *)
Lemma insert_keeps_types (d : DocumentRow) (t t' : table) :
  Forall (fun r => type_check (type r) = true) t ->
  insert d t = Ok t' ->
  Forall (fun r => type_check (type r) = true) t'.
Proof.
  unfold insert. intros Ht.
  destruct (type_check (type d)) eqn:E; simpl; [|discriminate].
  destruct (has_id (id d) t); [discriminate|].
  intros H. injection H as <-. apply Forall_app. split; [exact Ht|].
  constructor; [exact E | constructor].
Qed.

(** C9. A row that the write path accepts has a type of the closed set
    [manual], [script-reference], [package-docs], and a write that carries
    any other type is rejected: an [INSERT], an [INSERT OR REPLACE], and
    an [UPDATE] of the type of a row that exists. *)
Theorem write_validates_type (t : table) (d : DocumentRow)
    (i ty now : jsstring) :
  (forall t', insert d t = Ok t' -> In (type d) document_types)
  /\ (forall t', insert_or_replace d t = Ok t' -> In (type d) document_types)
  /\ (forall t', has_id i t = true -> update_type i ty now t = Ok t' ->
        In ty document_types)
  /\ (~ In (type d) document_types ->
        insert d t = Throw /\ insert_or_replace d t = Throw)
  /\ (~ In ty document_types -> has_id i t = true ->
        update_type i ty now t = Throw).
Proof.
  unfold insert, insert_or_replace, update_type.
  repeat split.
  - intros t'. destruct (type_check (type d)) eqn:E; simpl; [|discriminate].
    intros _. apply type_check_closed, E.
  - intros t'. destruct (type_check (type d)) eqn:E; simpl; [|discriminate].
    intros _. apply type_check_closed, E.
  - intros t' ->. destruct (type_check ty) eqn:E; simpl; [|discriminate].
    intros _. apply type_check_closed, E.
  - destruct (type_check (type d)) eqn:E; [|reflexivity].
    exfalso. apply H, type_check_closed, E.
  - destruct (type_check (type d)) eqn:E; [|reflexivity].
    exfalso. apply H, type_check_closed, E.
  - intros Hty ->. destruct (type_check ty) eqn:E; [|reflexivity].
    exfalso. apply Hty, type_check_closed, E.
Qed.

End StoreFacts.

(** An instance of C9: a row of type [changelog] is rejected by every
    write, on the sample table. *)
Lemma write_validates_type_witness :
  let d := Samples.row "e5" "6000.1" "changelog" "News" "News.html" "text" in
  ~ In (Store.type d) Store.document_types
  /\ Store.insert d Samples.docs = Throw
  /\ Store.insert_or_replace d Samples.docs = Throw
  /\ Store.update_type (lit "a1") (lit "changelog") (lit "now") Samples.docs
     = Throw.
Proof.
  intros d.
  assert (Hout : ~ In (Store.type d) Store.document_types).
  { simpl. intros [H | [H | [H | []]]]; discriminate H. }
  destruct (write_validates_type Samples.docs d (lit "a1") (Store.type d)
              (lit "now")) as [_ [_ [_ [Hins Hupd]]]].
  split; [exact Hout|].
  split; [apply (Hins Hout)|].
  split; [apply (Hins Hout)|].
  apply (Hupd Hout). reflexivity.
Defined.

(** The [CHECK] the table was created with is narrower than the closed
    set: it also rejects [package-docs]. *)
Example package_docs_rejected :
  Store.insert
    (Samples.row "f6" "6000.1" "package-docs" "Entities" "index.html" "text")
    Samples.docs = Throw.
Proof. reflexivity. Qed.

(** ** The document indexer *)

Section IndexerFacts.

Import Store Indexer.

Variable sha256_hex : jsstring -> jsstring.
Variable extractTitle : jsstring -> jsstring.
Variable extractContent : jsstring -> jsstring.
Variable argv2 : option jsstring.

Notation version := (Indexer.version argv2).
Notation process_file :=
  (Indexer.process_file sha256_hex extractTitle extractContent).
Notation process_entry :=
  (Indexer.process_entry sha256_hex extractTitle extractContent).
Notation processDirectory :=
  (Indexer.processDirectory sha256_hex extractTitle extractContent).
Notation main := (Indexer.main sha256_hex extractTitle extractContent).

(** Induction on a directory tree, with the hypothesis for every entry of a
    directory that can be read. *)
Lemma entry_induction (P : entry -> Prop) :
  (forall name data, P (File name data)) ->
  (forall name, P (Dir name None)) ->
  (forall name entries, Forall P entries -> P (Dir name (Some entries))) ->
  forall e, P e.
Proof.
  intros HFile HNone HSome.
  fix IH 1. intros [name data | name [entries|]].
  - apply HFile.
  - apply HSome. induction entries as [|e r IHr]; constructor.
    + apply IH.
    + apply IHr.
  - apply HNone.
Qed.

Lemma for_each_related (A : Type) (R : Run -> Run -> Prop)
    (body1 body2 : A -> Run -> outcome) (l : list A) :
  Forall (fun a => forall st1 st2, R st1 st2 ->
            related R (body1 a st1) (body2 a st2)) l ->
  forall st1 st2, R st1 st2 ->
    related R (for_each body1 l st1) (for_each body2 l st2).
Proof.
  induction 1 as [|a r Ha Hr IH]; intros st1 st2 HR; simpl; [exact HR|].
  specialize (Ha st1 st2 HR).
  destruct (body1 a st1) as [a1|a1], (body2 a st2) as [a2|a2];
    simpl in Ha; try contradiction; [apply IH; exact Ha | exact Ha].
Qed.

(** A relation that the handling of one file preserves is preserved by the
    traversal of a directory tree, run at two times [now1] and [now2]. *)
Lemma process_entry_related (R : Run -> Run -> Prop) (now1 now2 : jsstring) :
  (forall path data st1 st2, R st1 st2 ->
     R (process_file now1 argv2 path data st1)
       (process_file now2 argv2 path data st2)) ->
  forall e prefix st1 st2, R st1 st2 ->
    related R (process_entry now1 argv2 prefix e st1)
              (process_entry now2 argv2 prefix e st2).
Proof.
  intros Hfile.
  induction e as [name data | name | name entries IH] using entry_induction;
    intros prefix st1 st2 HR; simpl.
  - destruct (endsWith name (lit ".html")); simpl; [apply Hfile|]; exact HR.
  - exact HR.
  - apply for_each_related; [|exact HR].
    eapply Forall_impl; [|exact IH]. intros e He. apply He.
Qed.

Lemma processDirectory_related (R : Run -> Run -> Prop) (now1 now2 : jsstring)
    (docs : option (list entry)) :
  (forall path data st1 st2, R st1 st2 ->
     R (process_file now1 argv2 path data st1)
       (process_file now2 argv2 path data st2)) ->
  forall st1 st2, R st1 st2 ->
    related R (processDirectory now1 argv2 docs st1)
              (processDirectory now2 argv2 docs st2).
Proof.
  intros Hfile st1 st2 HR. destruct docs as [entries|]; simpl; [|exact HR].
  apply for_each_related; [|exact HR].
  apply Forall_forall. intros e _. apply process_entry_related, Hfile.
Qed.

Lemma related_final (R : Run -> Run -> Prop) (o1 o2 : outcome) :
  related R o1 o2 -> R (final o1) (final o2).
Proof. destruct o1, o2; simpl; tauto. Qed.


Lemma has_id_ids (i : jsstring) (t1 t2 : table) :
  ids t1 = ids t2 -> has_id i t1 = has_id i t2.
Proof.
  intros H. apply eq_true_iff_eq. rewrite !has_id_In, H. reflexivity.
Qed.

Lemma ids_app (t1 t2 : table) : ids (t1 ++ t2) = ids t1 ++ ids t2.
Proof. apply map_app. Qed.

Lemma insert_ids (d : DocumentRow) (t t' : table) :
  insert d t = Ok t' ->
  type_check (type d) = true /\ ~ In (id d) (ids t) /\ t' = t ++ [d].
Proof.
  unfold insert. destruct (type_check (type d)); simpl; [|discriminate].
  destruct (has_id (id d) t) eqn:E; [discriminate|].
  intros H. injection H as <-. repeat split.
  rewrite <- has_id_In, E. discriminate.
Qed.

(** The ids in the table after a file is handled depend on the ids before
    it, not on the time of the run. *)
Lemma process_file_same_ids (now1 now2 path : jsstring) (data : option jsstring)
    (st1 st2 : Run) :
  ids (store st1) = ids (store st2) ->
  ids (store (process_file now1 argv2 path data st1))
  = ids (store (process_file now2 argv2 path data st2)).
Proof.
  intros H. unfold Indexer.process_file, insert.
  destruct data as [html|]; simpl; [|exact H].
  destruct (type_check _); simpl; [|exact H].
  rewrite (has_id_ids _ _ _ H).
  destruct (has_id _ (store st2)); simpl; [exact H|].
  rewrite !ids_app, H. reflexivity.
Qed.

(** A file adds at most one row, of the version being indexed, after the
    rows already there. *)
Lemma process_file_appends (now path : jsstring) (data : option jsstring)
    (base : table) (st : Run) :
  (exists added, store st = base ++ added
     /\ Forall (fun d => unity_version d = version) added) ->
  exists added, store (process_file now argv2 path data st) = base ++ added
     /\ Forall (fun d => unity_version d = version) added.
Proof.
  intros [added [Hst Hver]]. unfold Indexer.process_file.
  destruct data as [html|]; simpl; [|exists added; auto].
  match goal with |- context [insert ?d ?t] =>
    destruct (insert d t) as [t'|] eqn:E end; simpl; [|exists added; auto].
  apply insert_ids in E. destruct E as [_ [_ ->]].
  eexists. rewrite Hst, <- app_assoc. split; [reflexivity|].
  apply Forall_app. split; [exact Hver|]. constructor; [reflexivity | constructor].
Qed.

Lemma process_file_NoDup (now path : jsstring) (data : option jsstring)
    (st : Run) :
  NoDup (ids (store st)) ->
  NoDup (ids (store (process_file now argv2 path data st))).
Proof.
  intros H. unfold Indexer.process_file.
  destruct data as [html|]; simpl; [|exact H].
  match goal with |- context [insert ?d ?t] =>
    destruct (insert d t) as [t'|] eqn:E end; simpl; [|exact H].
  apply insert_ids in E. destruct E as [_ [Hnew ->]].
  rewrite ids_app. simpl. apply NoDup_app; [exact H | | ].
  - constructor; [intros [] | constructor].
  - intros a Ha [<- | []]. exact (Hnew Ha).
Qed.

Lemma delete_version_ids_NoDup (v : jsstring) (t : table) :
  NoDup (ids t) -> NoDup (ids (delete_version v t)).
Proof.
  unfold delete_version, ids. induction t as [|d r IH]; simpl; [auto|].
  intros H. inversion H as [|x l Hx Hr]; subst.
  destruct (negb (Js.eqb (unity_version d) v)); simpl; [|apply IH, Hr].
  constructor; [|apply IH, Hr].
  intros Hin. apply Hx. apply in_map_iff in Hin. destruct Hin as [y [Hy Hin]].
  apply in_map_iff. exists y. split; [exact Hy|].
  apply filter_In in Hin. apply Hin.
Qed.

(** Clearing a version again after a run gives back the cleared table the
    run started from. *)
Lemma delete_version_restart (v : jsstring) (t added : table) :
  Forall (fun d => unity_version d = v) added ->
  delete_version v (delete_version v t ++ added) = delete_version v t.
Proof.
  intros H. unfold delete_version. rewrite filter_app.
  assert (Hadd : List.filter (fun d => negb (Js.eqb (unity_version d) v)) added = []).
  { induction H as [|d r Hd Hr IH]; simpl; [reflexivity|].
    rewrite Hd, js_eqb_refl. simpl. exact IH. }
  rewrite Hadd, app_nil_r.
  induction t as [|d r IH]; simpl; [reflexivity|].
  destruct (negb (Js.eqb (unity_version d) v)) eqn:E; simpl; [|exact IH].
  rewrite E, IH. reflexivity.
Qed.

(** The table that [main] leaves is the one the traversal ends with. *)
Lemma main_store (now : jsstring) (docs : option (list entry))
    (optimize_ok : bool) (t : table) :
  fst (main now argv2 docs optimize_ok t)
  = store (final (processDirectory now argv2 docs
                    (mkRun (delete_version version t) 0 0))).
Proof.
  unfold Indexer.main.
  destruct (processDirectory _ _ _ _) as [st|st]; simpl; [|reflexivity].
  destruct optimize_ok; reflexivity.
Qed.

(** When the documentation directory cannot be read, the run fails after
    the rows of the version were deleted, and the deletion stays. *)
Lemma missing_directory_purges (now : jsstring) (optimize_ok : bool)
    (t : table) :
  main now argv2 None optimize_ok t
  = (delete_version version t, ExitFailure).
Proof. reflexivity. Qed.

(** C6. Indexing an unchanged directory a second time for the same
    version leaves a table with the same number of documents and the same
    ids as the first run left, without a duplicate id: the run clears the
    rows of the version before it inserts, and the id of a document is a
    function of the version and the relative path. *)
Theorem reindex_idempotent (now1 now2 : jsstring) (docs : option (list entry))
    (ok1 ok2 : bool) (t : table) :
  NoDup (ids t) ->
  let t1 := fst (main now1 argv2 docs ok1 t) in
  let t2 := fst (main now2 argv2 docs ok2 t1) in
  List.length t2 = List.length t1
  /\ ids t2 = ids t1
  /\ NoDup (ids t2).
Proof.
  intros Hnodup t1 t2.
  set (cleared := delete_version version t).
  assert (Happ : exists added, t1 = cleared ++ added
                   /\ Forall (fun d => unity_version d = version) added).
  { unfold t1. rewrite main_store. fold cleared.
    apply (related_final (fun a _ => exists added, store a = cleared ++ added
             /\ Forall (fun d => unity_version d = version) added)
             _ (processDirectory now1 argv2 docs (mkRun cleared 0 0))).
    apply processDirectory_related.
    - intros path data st1 _. apply process_file_appends.
    - exists []. simpl. rewrite app_nil_r. auto. }
  destruct Happ as [added [Ht1 Hver]].
  assert (Hrestart : delete_version version t1 = cleared).
  { rewrite Ht1. apply delete_version_restart, Hver. }
  assert (Hids : ids t2 = ids t1).
  { unfold t2, t1 at 2. rewrite !main_store. rewrite Hrestart. fold cleared.
    apply (related_final (fun a b => ids (store a) = ids (store b))).
    apply processDirectory_related.
    - intros path data st1 st2. apply process_file_same_ids.
    - reflexivity. }
  split; [|split].
  - unfold ids in Hids. rewrite <- (length_map id t2), Hids.
    apply length_map.
  - exact Hids.
  - rewrite Hids. unfold t1. rewrite main_store. fold cleared.
    apply (related_final (fun a _ => NoDup (ids (store a)))
             _ (processDirectory now1 argv2 docs (mkRun cleared 0 0))).
    apply processDirectory_related.
    + intros path data st1 _. apply process_file_NoDup.
    + simpl. apply delete_version_ids_NoDup, Hnodup.
Qed.

End IndexerFacts.

Import Indexer.

(** Decides a goal [NoDup l] on a list of literals. *)
Ltac nodup_literals :=
  repeat (constructor;
          [simpl; intros H;
           repeat (destruct H as [H | H]; [discriminate H|]); exact H|]);
  constructor.

(** An instance of C6: the sample archive indexed twice into the sample
    table. *)
Lemma reindex_idempotent_witness :
  let run now t :=
    fst (main Samples.digest Samples.extractTitle Samples.extractContent
           now (Some (lit "6000.1")) Samples.tree true t) in
  let t1 := run (lit "2025-01-01 10:00:00") Samples.docs in
  let t2 := run (lit "2025-01-02 18:30:00") t1 in
  NoDup (ids Samples.docs)
  /\ List.length t1 = 4%nat
  /\ List.length t2 = List.length t1
  /\ ids t2 = ids t1
  /\ NoDup (ids t2).
Proof.
  intros run t1 t2.
  assert (Hnodup : NoDup (ids Samples.docs)) by nodup_literals.
  split; [exact Hnodup|]. split; [reflexivity|].
  exact (reindex_idempotent Samples.digest Samples.extractTitle
           Samples.extractContent (Some (lit "6000.1"))
           (lit "2025-01-01 10:00:00") (lit "2025-01-02 18:30:00")
           Samples.tree true true Samples.docs Hnodup).
Defined.

(** C1 fails on the code.  [main] runs the [DELETE] and every [INSERT] as
    statements of their own, outside any transaction, so a run that fails
    leaves what it did so far.  When the documentation directory cannot be
    read, the run ends in failure and the documents of the version are
    gone, whatever the digest and the parser are; when a subdirectory
    cannot be read, the run ends in failure and the table holds the one
    page inserted before, in place of the three pages of the version it
    held. *)
Theorem failed_run_is_not_rolled_back
    (sha256_hex extractTitle extractContent : jsstring -> jsstring)
    (now : jsstring) :
  let missing :=
    main sha256_hex extractTitle extractContent now (Some (lit "6000.1"))
      None true Samples.docs in
  let damaged :=
    main Samples.digest Samples.extractTitle Samples.extractContent now
      (Some (lit "6000.1")) Samples.damaged_tree true Samples.docs in
  snd missing = ExitFailure
  /\ fst missing = [Samples.old_manual]
  /\ fst missing <> Samples.docs
  /\ snd damaged = ExitFailure
  /\ List.map file_path (fst damaged)
     = [lit "Manual/RigidbodiesOverview.html"; lit "Manual/index.html"]
  /\ List.map unity_version (fst damaged) = [lit "2022.3"; lit "6000.1"]
  /\ fst damaged <> Samples.docs.
Proof.
  intros missing damaged.
  repeat split; try reflexivity.
  - discriminate.
  - intros H. apply (f_equal (@List.length DocumentRow)) in H.
    discriminate H.
Qed.

Import Pagination.


(** An instance of C10: the sample page on the Animator, read from
    offset 1000 with the default limit. *)
Lemma read_past_end_witness :
  exists header page codeBlocks,
    read_unity_doc Samples.extractTitle Samples.extractContent
      Samples.extractCodeBlocks Samples.extracted_file (lit "6000.1")
      Samples.docs (lit "Manual/class-Animator.html") 1000 2000
    = Shown header page codeBlocks
    /\ contentChunk page = []
    /\ hasMore page = false
    /\ trailer page
       = Pagination.nl ++ Pagination.nl
         ++ lit "**Complete content shown** (38 characters)".
Proof.
  destruct (read_past_end Samples.extractTitle Samples.extractContent
              Samples.extractCodeBlocks Samples.extracted_file (lit "6000.1")
              Samples.docs (lit "Manual/class-Animator.html") 1000 2000
              Samples.animator_manual)
    as [header [page [codeBlocks [Hshown [Hend _]]]]].
  - reflexivity.
  - simpl. lia.
  - exists header, page, codeBlocks. split; [exact Hshown|].
    apply Hend. simpl. lia.
Defined.

(** The same page, 38 characters long, read from offset 38 with the limit
    -2: [substring(38, 36)] swaps its arguments, so the chunk is the last
    two characters of the content and not the empty string, and [hasMore]
    is true since 36 is below 38. *)
Lemma read_past_end_negative_limit :
  get_by_path (lit "Manual/class-Animator.html") (lit "6000.1") Samples.docs
  = Some Samples.animator_manual
  /\ Z.of_nat (List.length (content Samples.animator_manual)) <= 38
  /\ read_unity_doc Samples.extractTitle Samples.extractContent
       Samples.extractCodeBlocks Samples.extracted_file (lit "6000.1")
       Samples.docs (lit "Manual/class-Animator.html") 38 (-2)
     = Shown (db_header (lit "6000.1") Samples.animator_manual)
         (mkPage (lit "dy") 38 true 38 36 36) [].
Proof.
  split; [reflexivity|]. split; [simpl; lia | reflexivity].
Qed.

(** [substring] swaps its arguments when they are out of order: with a
    negative [limit] the page is the text before [offset]. *)
Example negative_limit_reads_backwards :
  contentChunk (paginate (lit "hello") 5 (-2)) = lit "lo"
  /\ hasMore (paginate (lit "hello") 5 (-2)) = true.
Proof. split; reflexivity. Qed.

(** A negative [LIMIT] is no limit. *)
Example negative_limit_is_no_limit :
  List.length (limit_offset (-1) 0
                 [mkHit Samples.rigidbody_manual [] 0%Q;
                  mkHit Samples.rigidbody_api [] 0%Q]) = 2%nat.
Proof. reflexivity. Qed.

(** A limit outside the signed 64-bit range makes the statement fail, and
    the search throw. *)
Example limit_out_of_range_throws :
  search Samples.fts_match Samples.fts_snippet Samples.docs
    (Samples.options "Rigidbody" (Some (2 ^ 63)) None)
  = mkOutcome Throw
      [mkStatement (lit "Rigidbody") (lit "6000.1") None None None (2 ^ 63) 0].
Proof. reflexivity. Qed.

(** The query [Unity 6.0] of the specification. *)
Example sanitize_unity_6_0 :
  Sanitizer.sanitizeSearchQuery (lit "Unity 6.0") = lit "Unity 60".
Proof. reflexivity. Qed.

(* ================================================================= *)
(** * Further properties of the code *)

(** ** The sanitizer: tokens *)

Section SanitizerTokens.

Import Sanitizer Words.

Local Open Scope N_scope.

Ltac word_arith :=
  unfold is_word, is_safe, is_kept, is_alnum, is_ws, is_dot, is_paren, is_star,
    is_qmark, is_brace, is_bracket, in_range, space in *;
  repeat match goal with
    | H : _ = false |- _ => apply not_true_iff_false in H
    | |- _ = false => apply not_true_iff_false
    end;
  rewrite ?orb_true_iff, ?andb_true_iff, ?N.eqb_eq, ?N.leb_le in *;
  lia.

Lemma word_not_ws (c : char) : is_word c = true -> is_ws c = false.
Proof. intros H. word_arith. Qed.

Lemma word_is_kept (c : char) : is_word c = true -> is_kept c = true.
Proof. intros H. word_arith. Qed.

Lemma space_not_word : is_word space = false.
Proof. reflexivity. Qed.

Lemma safe_not_word_is_space (c : char) :
  is_safe c = true -> is_word c = false -> c = space.
Proof. intros H1 H2. word_arith. Qed.

Lemma word_not_operator (c : char) :
  is_word c = true ->
  is_dot c = false /\ is_paren c = false /\ is_star c = false /\
  is_qmark c = false /\ is_brace c = false /\ is_bracket c = false.
Proof. intros H. repeat split; word_arith. Qed.

Lemma words_remove_class (cls : char -> bool) (s : jsstring) :
  (forall c, is_word c = true -> cls c = false) ->
  List.filter is_word (remove_class cls s) = List.filter is_word s.
Proof.
  intros Hcls. unfold remove_class.
  induction s as [|c r IH]; simpl; [reflexivity|].
  destruct (is_word c) eqn:E.
  - rewrite (Hcls c E). simpl. rewrite E, IH. reflexivity.
  - destruct (cls c); simpl; [|rewrite E]; exact IH.
Qed.

Lemma words_replace_outside (s : jsstring) :
  List.filter is_word (replace_outside is_kept s) = List.filter is_word s.
Proof.
  unfold replace_outside.
  induction s as [|c r IH]; simpl; [reflexivity|].
  destruct (is_word c) eqn:E.
  - rewrite (word_is_kept c E), E, IH. reflexivity.
  - destruct (is_kept c); [rewrite E; exact IH | simpl; exact IH].
Qed.

Lemma words_collapse (s : jsstring) (b : bool) :
  List.filter is_word (collapse_ws_from b s) = List.filter is_word s.
Proof.
  revert b; induction s as [|c r IH]; intros b; simpl; [reflexivity|].
  destruct (is_ws c) eqn:E.
  - assert (Hc : is_word c = false).
    { destruct (is_word c) eqn:W; [|reflexivity].
      rewrite (word_not_ws c W) in E. discriminate. }
    rewrite Hc. destruct b; simpl; apply IH.
  - simpl. rewrite IH. reflexivity.
Qed.

Lemma words_trimStart (s : jsstring) :
  List.filter is_word (trimStart s) = List.filter is_word s.
Proof.
  induction s as [|c r IH]; simpl; [reflexivity|].
  destruct (is_ws c) eqn:E; [|reflexivity].
  destruct (is_word c) eqn:W; [|exact IH].
  rewrite (word_not_ws c W) in E. discriminate.
Qed.

Lemma words_trimEnd (s : jsstring) :
  List.filter is_word (trimEnd s) = List.filter is_word s.
Proof.
  induction s as [|c r IH]; simpl; [reflexivity|].
  destruct (is_ws c) eqn:E; simpl.
  - assert (Hc : is_word c = false).
    { destruct (is_word c) eqn:W; [|reflexivity].
      rewrite (word_not_ws c W) in E. discriminate. }
    rewrite Hc. destruct (trimEnd r) as [|x r'] eqn:Er; simpl.
    + rewrite <- IH. reflexivity.
    + rewrite Hc, <- IH. reflexivity.
  - rewrite IH. reflexivity.
Qed.

Lemma words_sanitize (q : jsstring) :
  List.filter is_word (sanitizeSearchQuery q) = List.filter is_word q.
Proof.
  unfold sanitizeSearchQuery, trim, collapse_ws.
  rewrite words_trimEnd, words_trimStart, words_collapse, words_replace_outside.
  rewrite !words_remove_class;
    try (intros c Hc; apply (word_not_operator c Hc)).
  reflexivity.
Qed.

Lemma starts_clean_all_spaces (s : jsstring) :
  starts_clean s = true ->
  Forall (fun c => c = space) s ->
  s = [].
Proof.
  destruct s as [|c r]; [reflexivity|]. simpl.
  intros H Hall. inversion Hall as [|x l Hc Hr]; subst. discriminate H.
Qed.

Lemma sanitize_starts_clean (q : jsstring) :
  starts_clean (sanitizeSearchQuery q) = true.
Proof.
  unfold sanitizeSearchQuery, trim.
  apply starts_clean_trimEnd, starts_clean_trimStart.
Qed.

(** A query without a letter, digit, underscore or hyphen is sanitized to
    the empty string. *)
Lemma sanitize_no_words (q : jsstring) :
  Forall (fun c => is_word c = false) q -> sanitizeSearchQuery q = [].
Proof.
  intros H. apply starts_clean_all_spaces; [apply sanitize_starts_clean|].
  pose proof (sanitize_safe q) as Hsafe.
  pose proof (words_sanitize q) as Hw.
  assert (Hnone : List.filter is_word q = []).
  { clear Hw Hsafe. induction H as [|c r Hc Hr IH]; simpl; [reflexivity|].
    rewrite Hc. exact IH. }
  rewrite Hnone in Hw.
  apply Forall_forall. intros c Hc.
  rewrite Forall_forall in Hsafe.
  apply safe_not_word_is_space; [apply Hsafe, Hc|].
  destruct (is_word c) eqn:E; [|reflexivity].
  assert (Hin : In c (List.filter is_word (sanitizeSearchQuery q)))
    by (apply filter_In; auto).
  rewrite Hw in Hin. contradiction.
Qed.

(** The sanitized query is empty exactly when the query holds no letter,
    digit, underscore or hyphen; those are the queries that [search]
    answers without a statement. *)
Theorem sanitize_empty_iff (q : jsstring) :
  sanitizeSearchQuery q = [] <-> Forall (fun c => is_word c = false) q.
Proof.
  split; [|apply sanitize_no_words].
  intros H. pose proof (words_sanitize q) as Hw. rewrite H in Hw.
  simpl in Hw. apply Forall_forall. intros c Hc.
  destruct (is_word c) eqn:E; [|reflexivity].
  assert (Hin : In c (List.filter is_word q)) by (apply filter_In; auto).
  rewrite <- Hw in Hin. contradiction.
Qed.

Lemma collapse_length (s : jsstring) (b : bool) :
  (List.length (collapse_ws_from b s) <= List.length s)%nat.
Proof.
  revert b; induction s as [|c r IH]; intros b; simpl; [lia|].
  pose proof (IH true) as Ht. pose proof (IH false) as Hf.
  destruct (is_ws c); [destruct b|]; simpl; lia.
Qed.

Lemma trimStart_length (s : jsstring) :
  (List.length (trimStart s) <= List.length s)%nat.
Proof.
  induction s as [|c r IH]; simpl; [lia|].
  destruct (is_ws c); simpl; lia.
Qed.

Lemma trimEnd_length (s : jsstring) :
  (List.length (trimEnd s) <= List.length s)%nat.
Proof.
  induction s as [|c r IH]; simpl; [lia|].
  destruct (is_ws c && is_empty (trimEnd r)); simpl; lia.
Qed.

Lemma remove_class_length (cls : char -> bool) (s : jsstring) :
  (List.length (remove_class cls s) <= List.length s)%nat.
Proof. apply filter_length_le. Qed.

(** The sanitizer keeps every letter, digit, underscore and hyphen of the
    query, in order, and adds none; it never lengthens a query. *)
Theorem sanitize_keeps_words (q : jsstring) :
  List.filter is_word (sanitizeSearchQuery q) = List.filter is_word q
  /\ (List.length (sanitizeSearchQuery q) <= List.length q)%nat.
Proof.
  split; [apply words_sanitize|].
  unfold sanitizeSearchQuery, trim, collapse_ws.
  eapply Nat.le_trans; [apply trimEnd_length|].
  eapply Nat.le_trans; [apply trimStart_length|].
  eapply Nat.le_trans; [apply collapse_length|].
  unfold replace_outside. rewrite length_map.
  repeat (eapply Nat.le_trans; [apply remove_class_length|]).
  apply Nat.le_refl.
Qed.

End SanitizerTokens.

Section SplitJoin.

Import Sanitizer Words.

Lemma join_cons_char (sep : jsstring) (c : char) (w : jsstring)
    (ws : list jsstring) :
  join sep ((c :: w) :: ws) = c :: join sep (w :: ws).
Proof. destruct ws; reflexivity. Qed.

Lemma split_ws_from_nonempty (s : jsstring) (b : bool) :
  split_ws_from b s <> [].
Proof.
  revert b; induction s as [|c r IH]; intros b; simpl; [discriminate|].
  destruct (is_ws c); [destruct b; [apply IH | discriminate]|].
  destruct (split_ws_from false r); discriminate.
Qed.

(** A leading run of white space yields one empty piece, unless the run
    was already open. *)
Lemma split_ws_from_false (s : jsstring) :
  split_ws_from false s
  = if starts_clean s then split_ws_from true s else [] :: split_ws_from true s.
Proof.
  destruct s as [|c r]; simpl; [reflexivity|].
  destruct (is_ws c); reflexivity.
Qed.

Lemma single_spaced_starts_clean (s : jsstring) :
  single_spaced_from true s = true -> starts_clean s = true.
Proof.
  destruct s as [|c r]; simpl; [reflexivity|].
  destruct (is_ws c); [discriminate | reflexivity].
Qed.

(** Splitting a single-spaced string at white space and joining the pieces
    with a space gives the string back. *)
Lemma join_split_single_spaced (s : jsstring) :
  single_spaced_from false s = true ->
  join (lit " ") (split_ws s) = s.
Proof.
  unfold split_ws. induction s as [|c r IH]; simpl; [reflexivity|].
  destruct (is_ws c) eqn:E.
  - intros H.
    assert (Hc : c = space /\ single_spaced_from true r = true)
      by (rewrite !andb_true_iff, N.eqb_eq in H; tauto).
    destruct Hc as [-> Hr].
    pose proof (split_ws_from_false r) as Hsplit.
    rewrite (single_spaced_starts_clean r Hr) in Hsplit.
    rewrite <- Hsplit.
    destruct (split_ws_from false r) as [|w ws] eqn:Ew.
    { exfalso. exact (split_ws_from_nonempty r false Ew). }
    change (join (lit " ") ([] :: w :: ws))
      with (lit " " ++ join (lit " ") (w :: ws)).
    rewrite IH by (apply (single_spaced_weaken r true Hr)). reflexivity.
  - intros Hr.
    destruct (split_ws_from false r) as [|w ws] eqn:Ew.
    { exfalso. exact (split_ws_from_nonempty r false Ew). }
    rewrite join_cons_char, (IH Hr). reflexivity.
Qed.

(** The characters of the pieces are characters of the string that are
    not white space. *)
Lemma split_pieces_chars (s : jsstring) (b : bool) :
  Forall (Forall (fun c => In c s /\ is_ws c = false)) (split_ws_from b s).
Proof.
  revert b; induction s as [|c r IH]; intros b; simpl.
  - repeat constructor.
  - assert (Hweak : forall b',
              Forall (Forall (fun x => (c = x \/ In x r) /\ is_ws x = false))
                (split_ws_from b' r)).
    { intros b'. eapply Forall_impl; [|apply (IH b')].
      intros w Hw. eapply Forall_impl; [|exact Hw]. intros x [H1 H2]. auto. }
    destruct (is_ws c) eqn:E.
    + destruct b; [apply Hweak | constructor; [constructor | apply Hweak]].
    + specialize (Hweak false).
      destruct (split_ws_from false r) as [|w ws].
      * repeat constructor. exact E.
      * inversion Hweak as [|x l Hw Hws]; subst.
        constructor; [|exact Hws]. constructor; [auto | exact Hw].
Qed.

(** In a single-spaced string that does not end in white space, no piece
    after the first is empty. *)
Lemma split_pieces_nonempty (s : jsstring) :
  single_spaced_from false s = true ->
  trimEnd s = s ->
  s <> [] ->
  Forall (fun w => w <> []) (split_ws_from true s).
Proof.
  induction s as [|c r IH]; [intros _ _ H; contradiction|].
  simpl. destruct (is_ws c) eqn:E; simpl.
  - intros H Hend _.
    assert (Hr : single_spaced_from true r = true)
      by (rewrite !andb_true_iff in H; tauto).
    destruct (is_empty (trimEnd r)) eqn:Ee; [discriminate Hend|].
    injection Hend as Hend.
    apply IH; [apply (single_spaced_weaken r true Hr) | exact Hend |].
    intros ->. discriminate Ee.
  - intros Hr Hend _. injection Hend as Hend.
    destruct r as [|c' r'].
    + simpl. repeat constructor. discriminate.
    + assert (Htail : Forall (fun w => w <> []) (split_ws_from true (c' :: r')))
        by (apply IH; [exact Hr | exact Hend | discriminate]).
      rewrite split_ws_from_false.
      destruct (starts_clean (c' :: r')).
      * destruct (split_ws_from true (c' :: r')) as [|w ws].
        { repeat constructor. discriminate. }
        inversion Htail; subst. constructor; [discriminate | assumption].
      * constructor; [discriminate | exact Htail].
Qed.

Lemma safe_not_ws_is_word (c : char) :
  is_safe c = true -> is_ws c = false -> is_word c = true.
Proof.
  unfold is_word, is_safe. intros H E.
  rewrite !orb_true_iff in *. destruct H as [[[H | H] | H] | H]; auto.
  apply N.eqb_eq in H. subst c. discriminate E.
Qed.

(** The sanitized query is a list of tokens joined by single spaces;
    unless it is empty, every token is a non-empty string of letters,
    digits, underscores and hyphens. *)
Theorem sanitize_tokens (q : jsstring) :
  let out := sanitizeSearchQuery q in
  join (lit " ") (split_ws out) = out
  /\ (out <> [] ->
      Forall (fun w => w <> [] /\ Forall (fun c => is_word c = true) w)
        (split_ws out)).
Proof.
  intros out. split.
  - apply join_split_single_spaced, sanitize_single_spaced.
  - intros Hne.
    assert (Hnonempty : Forall (fun w => w <> []) (split_ws out)).
    { unfold split_ws. rewrite split_ws_from_false.
      unfold out at 1. rewrite sanitize_starts_clean.
      apply split_pieces_nonempty.
      - apply sanitize_single_spaced.
      - unfold out, sanitizeSearchQuery, trim. apply trimEnd_idempotent.
      - exact Hne. }
    pose proof (split_pieces_chars out false) as Hchars.
    pose proof (sanitize_safe q) as Hsafe. rewrite Forall_forall in Hsafe.
    apply Forall_forall. intros w Hw. split.
    + rewrite Forall_forall in Hnonempty. apply Hnonempty, Hw.
    + rewrite Forall_forall in Hchars. specialize (Hchars w Hw).
      eapply Forall_impl; [|exact Hchars].
      intros c [Hin Hws]. apply safe_not_ws_is_word; [apply Hsafe, Hin | exact Hws].
Qed.

End SplitJoin.

(** ** The search engine: what a search returns *)

Section SearchResults.

Import Store Search.

Variable fts_match : jsstring -> option (DocumentRow -> option Q).
Variable fts_snippet : jsstring -> DocumentRow -> jsstring.


(** Every result is the projection of a row of the table: a row of the
    version asked for (6000.1 when none is), that the engine matched, of
    the package and package version asked for when they are given; its
    score is the absolute value of the rank of the row. *)
Theorem search_results_are_rows (t : table) (o : SearchOptions)
    (results : list SearchResult) :
  returned (search fts_match fts_snippet t o) = Ok results ->
  Forall (fun r => exists d rank x,
            In d t
            /\ r = mkResult (id d) (title d) (type d) (file_path d) (url d)
                     (package_name d) (package_version d)
                     (fts_snippet (Sanitizer.sanitizeSearchQuery (o_query o)) d)
                     (Qabs x)
            /\ fts_match (Sanitizer.sanitizeSearchQuery (o_query o)) = Some rank
            /\ rank d = Some x
            /\ unity_version d = default (lit "6000.1") (o_version o)
            /\ (forall p, o_packageName o = Some p -> p <> [] ->
                  package_name d = Some p)
            /\ (forall p, o_packageVersion o = Some p -> p <> [] ->
                  package_version d = Some p))
    results.
Proof.
  rewrite search_cases.
  destruct (Sanitizer.sanitizeSearchQuery (o_query o)) as [|c q'] eqn:Eq; simpl.
  { intros H. injection H as <-. constructor. }
  destruct (fts_match (c :: q')) as [rank|] eqn:Em; simpl; [|discriminate].
  destruct (int64 (default 10 (o_limit o)) && int64 (default 0 (o_offset o)));
    simpl; [|discriminate].
  intros H. injection H as <-.
  apply Forall_map, limit_offset_Forall, order_by_rank_Forall.
  eapply Forall_impl; [|apply hits_of_rows].
  intros h [Hin [Hw [Hr Hs]]]. exists (h_row h), rank, (h_rank h).
  unfold where_clause in Hw. simpl in Hw. rewrite !andb_true_iff in Hw.
  destruct Hw as [[[Hv _] Hpn] Hpv].
  split; [exact Hin|]. split.
  { unfold to_result. rewrite Hs. reflexivity. }
  split; [reflexivity|]. split; [exact Hr|]. split; [apply js_eqb_eq, Hv|].
  split.
  - intros p Hp Hne. rewrite Hp in Hpn. simpl in Hpn.
    destruct p as [|a p]; [contradiction|]. simpl in Hpn.
    unfold opt_eqb in Hpn. destruct (package_name (h_row h)); [|discriminate].
    apply js_eqb_eq in Hpn. congruence.
  - intros p Hp Hne. rewrite Hp in Hpv. simpl in Hpv.
    destruct p as [|a p]; [contradiction|]. simpl in Hpv.
    unfold opt_eqb in Hpv. destruct (package_version (h_row h)); [|discriminate].
    apply js_eqb_eq in Hpv. congruence.
Qed.

End SearchResults.

Section SearchOrder.

Import Store Search.

Variable fts_match : jsstring -> option (DocumentRow -> option Q).
Variable fts_snippet : jsstring -> DocumentRow -> jsstring.

Lemma insert_hit_HdRel (R : Hit -> Hit -> Prop) (a h : Hit) (l : list Hit) :
  R a h -> HdRel R a l -> HdRel R a (insert_hit h l).
Proof.
  intros Hah Hal. destruct l as [|x r]; simpl; [constructor; exact Hah|].
  inversion Hal; subst.
  destruct (Qle_bool (h_rank h) (h_rank x)); constructor; assumption.
Qed.

Lemma insert_hit_sorted (h : Hit) (l : list Hit) :
  Sorted (fun a b => (h_rank a <= h_rank b)%Q) l ->
  Sorted (fun a b => (h_rank a <= h_rank b)%Q) (insert_hit h l).
Proof.
  induction 1 as [|x r Hr IH Hx]; simpl.
  - repeat constructor.
  - destruct (Qle_bool (h_rank h) (h_rank x)) eqn:E.
    + constructor; [constructor; assumption|].
      constructor. apply Qle_bool_iff, E.
    + constructor; [exact IH|].
      apply insert_hit_HdRel; [|exact Hx].
      apply Qlt_le_weak, Qnot_le_lt. intros Hle.
      apply Qle_bool_iff in Hle. rewrite Hle in E. discriminate.
Qed.

Lemma order_by_rank_sorted (l : list Hit) :
  StronglySorted (fun a b => (h_rank a <= h_rank b)%Q) (order_by_rank l).
Proof.
  apply Sorted_StronglySorted.
  - intros a b c Hab Hbc. eapply Qle_trans; eassumption.
  - unfold order_by_rank. induction l as [|x r IH]; simpl.
    + constructor.
    + apply insert_hit_sorted, IH.
Qed.

Lemma StronglySorted_skipn (A : Type) (R : A -> A -> Prop) (n : nat)
    (l : list A) :
  StronglySorted R l -> StronglySorted R (skipn n l).
Proof.
  revert l; induction n as [|n IH]; intros l H; simpl; [exact H|].
  destruct l as [|x r]; [constructor|].
  apply IH. inversion H; assumption.
Qed.

Lemma StronglySorted_firstn (A : Type) (R : A -> A -> Prop) (n : nat)
    (l : list A) :
  StronglySorted R l -> StronglySorted R (firstn n l).
Proof.
  revert l; induction n as [|n IH]; intros l H; simpl; [constructor|].
  destruct l as [|x r]; [constructor|].
  inversion H; subst. constructor; [apply IH; assumption|].
  apply Forall_firstn. assumption.
Qed.

Lemma StronglySorted_map (A B : Type) (R : A -> A -> Prop)
    (S : B -> B -> Prop) (f : A -> B) (l : list A) :
  (forall a b, In a l -> In b l -> R a b -> S (f a) (f b)) ->
  StronglySorted R l -> StronglySorted S (List.map f l).
Proof.
  intros Hf H. induction H as [|x r Hr IH Hx]; simpl; [constructor|].
  constructor.
  - apply IH. intros a b Ha Hb. apply Hf; right; assumption.
  - apply Forall_map. rewrite Forall_forall in *. intros b Hb.
    apply Hf; [left; reflexivity | right; exact Hb | apply Hx, Hb].
Qed.

(** The results come in the order of the engine's rank, smallest first.
    When the engine ranks every row at or below zero, as FTS5 does, the
    scores therefore never increase along the list: the best match, of
    the largest score, is first. *)
Theorem search_best_first (t : table) (o : SearchOptions)
    (results : list SearchResult) :
  returned (search fts_match fts_snippet t o) = Ok results ->
  (exists rows,
     results = List.map to_result rows
     /\ StronglySorted (fun a b => (h_rank a <= h_rank b)%Q) rows)
  /\ ((forall q rank d x, fts_match q = Some rank -> rank d = Some x ->
         (x <= 0)%Q) ->
      StronglySorted (fun a b => (r_score b <= r_score a)%Q) results).
Proof.
  rewrite search_cases.
  destruct (Sanitizer.sanitizeSearchQuery (o_query o)) as [|c q'] eqn:Eq; simpl.
  { intros H. injection H as <-. split; [exists []; split|]; constructor. }
  destruct (fts_match (c :: q')) as [rank|] eqn:Em; simpl; [|discriminate].
  destruct (int64 (default 10 (o_limit o)) && int64 (default 0 (o_offset o)));
    simpl; [|discriminate].
  intros H. injection H as <-.
  set (s := build_statement (c :: q') o).
  set (rows := limit_offset (s_limit s) (s_offset s)
                 (order_by_rank (hits_of fts_snippet s rank t))).
  assert (Hsorted : StronglySorted (fun a b => (h_rank a <= h_rank b)%Q) rows).
  { unfold rows, limit_offset.
    destruct (s_limit s <? 0); [|apply StronglySorted_firstn];
      apply StronglySorted_skipn, order_by_rank_sorted. }
  split; [exists rows; split; [reflexivity | exact Hsorted]|].
  intros Hneg.
  assert (Hrows : Forall (fun h => (h_rank h <= 0)%Q) rows).
  { unfold rows. apply limit_offset_Forall, order_by_rank_Forall.
    eapply Forall_impl; [|apply (hits_of_rows fts_snippet s rank t)].
    intros h [_ [_ [Hr _]]]. apply (Hneg (c :: q') rank (h_row h) _ Em Hr). }
  rewrite Forall_forall in Hrows.
  eapply StronglySorted_map; [|exact Hsorted].
  intros a b Ha Hb Hab. simpl.
  rewrite (Qabs_neg _ (Hrows a Ha)), (Qabs_neg _ (Hrows b Hb)).
  apply Qopp_le_compat, Hab.
Qed.

Lemma firstn_add (A : Type) (n m : nat) (l : list A) :
  firstn n l ++ firstn m (skipn n l) = firstn (n + m) l.
Proof.
  revert l; induction n as [|n IH]; intros l; simpl; [reflexivity|].
  destruct l as [|x r]; simpl; [rewrite firstn_nil; reflexivity|].
  rewrite IH. reflexivity.
Qed.

Lemma limit_offset_compose (l1 l2 offset : Z) (l : list Hit) :
  0 <= l1 -> 0 <= l2 -> 0 <= offset ->
  limit_offset l1 offset l ++ limit_offset l2 (offset + l1) l
  = limit_offset (l1 + l2) offset l.
Proof.
  intros H1 H2 Ho. unfold limit_offset.
  destruct (l1 <? 0) eqn:E1; [apply Z.ltb_lt in E1; lia|].
  destruct (l2 <? 0) eqn:E2; [apply Z.ltb_lt in E2; lia|].
  destruct (l1 + l2 <? 0) eqn:E3; [apply Z.ltb_lt in E3; lia|].
  replace (Z.to_nat (offset + l1)) with (Z.to_nat offset + Z.to_nat l1)%nat
    by lia.
  replace (Z.to_nat (l1 + l2)) with (Z.to_nat l1 + Z.to_nat l2)%nat by lia.
  rewrite skipn_add. apply firstn_add.
Qed.

(** Paging through a result set: for limits and an offset that are not
    negative, with [l1 + l2] and [offset + l1] in the signed 64-bit range,
    the [l1] results from [offset] followed by the [l2] results from
    [offset + l1] are the [l1 + l2] results from [offset]. *)
Theorem search_pages_compose (t : table) (o : SearchOptions)
    (l1 l2 offset : Z) (first second : list SearchResult) :
  let page limit from :=
    mkOptions (o_query o) (Some limit) (Some from) (o_type o) (o_version o)
      (o_packageName o) (o_packageVersion o) in
  0 <= l1 -> 0 <= l2 -> 0 <= offset ->
  l1 + l2 < 2 ^ 63 -> offset + l1 < 2 ^ 63 ->
  returned (search fts_match fts_snippet t (page l1 offset)) = Ok first ->
  returned (search fts_match fts_snippet t (page l2 (offset + l1))) = Ok second ->
  returned (search fts_match fts_snippet t (page (l1 + l2) offset))
  = Ok (first ++ second).
Proof.
  intros page H1 H2 Ho Hsum Hnext. rewrite !search_cases. unfold page.
  simpl o_query.
  destruct (Sanitizer.sanitizeSearchQuery (o_query o)) as [|c q']; simpl.
  { intros Ha Hb. injection Ha as <-. injection Hb as <-. reflexivity. }
  destruct (fts_match (c :: q')) as [rank|]; simpl; [|discriminate].
  assert (Hin : forall v, 0 <= v -> v < 2 ^ 63 -> int64 v = true).
  { intros v Hv Hlt. unfold int64. apply andb_true_iff.
    split; [apply Z.leb_le | apply Z.ltb_lt]; lia. }
  rewrite (Hin l1), (Hin l2), (Hin offset), (Hin (l1 + l2)),
    (Hin (offset + l1)) by lia.
  simpl. intros Ha Hb. injection Ha as <-. injection Hb as <-.
  rewrite <- map_app. do 2 f_equal.
  unfold build_statement, hits_of, where_clause. simpl.
  symmetry. apply limit_offset_compose; assumption.
Qed.

End SearchOrder.

(** ** Recommendations *)

Section FindSimilar.

Import Store Search Words DocumentSearch.

Variable fts_match : jsstring -> option (DocumentRow -> option Q).
Variable fts_snippet : jsstring -> DocumentRow -> jsstring.

Lemma slice_to_length (A : Type) (a : list A) (limit : Z) :
  0 <= limit -> Z.of_nat (List.length (slice_to a limit)) <= limit.
Proof.
  intros H. unfold slice_to.
  destruct (limit <? 0) eqn:E; [apply Z.ltb_lt in E; lia|].
  rewrite length_firstn. lia.
Qed.

Lemma slice_to_Forall (A : Type) (P : A -> Prop) (a : list A) (limit : Z) :
  Forall P a -> Forall P (slice_to a limit).
Proof. intros H. unfold slice_to. apply Forall_firstn, H. Qed.

Lemma filter_Forall (A : Type) (P : A -> Prop) (f : A -> bool) (l : list A) :
  Forall P l -> Forall P (List.filter f l).
Proof.
  rewrite !Forall_forall. intros H x Hx. apply filter_In in Hx. apply H, Hx.
Qed.

(** The results of a search that filters on a type have that type. *)
Lemma search_filtered_type (t : table) (o : SearchOptions) (ty : jsstring)
    (results : list SearchResult) :
  o_type o = Some ty -> ty <> lit "all" ->
  returned (search fts_match fts_snippet t o) = Ok results ->
  Forall (fun r => r_type r = ty) results.
Proof.
  intros Hty Hall. rewrite search_cases.
  destruct (Sanitizer.sanitizeSearchQuery (o_query o)) as [|c q']; simpl.
  { intros H. injection H as <-. constructor. }
  destruct (fts_match (c :: q')) as [rank|]; simpl; [|discriminate].
  destruct (int64 (default 10 (o_limit o)) && int64 (default 0 (o_offset o)));
    simpl; [|discriminate].
  intros H. injection H as <-.
  apply Forall_map, limit_offset_Forall, order_by_rank_Forall.
  eapply Forall_impl; [|apply hits_of_rows].
  intros h [_ [Hw _]]. simpl.
  unfold where_clause, build_statement in Hw. simpl in Hw. rewrite Hty in Hw.
  simpl in Hw. apply js_eqb_neq in Hall. rewrite Hall in Hw.
  rewrite !andb_true_iff in Hw. apply js_eqb_eq. tauto.
Qed.

Lemma type_check_not_all (ty : jsstring) :
  type_check ty = true -> ty <> lit "all".
Proof. intros H ->. discriminate H. Qed.

Lemma keywords_short_title (title : jsstring) :
  Forall (fun word => (List.length word <= 3)%nat) (split_ws title) ->
  keywords title = [].
Proof.
  intros H. unfold keywords.
  assert (Hnone : List.filter (fun word => 3 <? Z.of_nat (List.length word))
                    (split_ws title) = []).
  { induction H as [|w r Hw Hr IH]; simpl; [reflexivity|].
    assert (E : (3 <? Z.of_nat (List.length w)) = false)
      by (apply Z.ltb_ge; lia).
    rewrite E. exact IH. }
  rewrite Hnone. reflexivity.
Qed.

(** [findSimilar] never returns the document it was asked about, nor more
    than [limit] documents; every document it returns has the type of
    that document; it returns nothing for an unknown id, and nothing for a
    document whose title has no word longer than three characters. *)
Theorem findSimilar_results (t : table) (documentId : jsstring) (limit : Z) :
  Forall (fun r => type_check (type r) = true) t ->
  let similar := findSimilar fts_match fts_snippet t documentId limit in
  Forall (fun r => r_id r <> documentId) similar
  /\ (0 <= limit -> Z.of_nat (List.length similar) <= limit)
  /\ (getDocument documentId t = None -> similar = [])
  /\ (forall doc, getDocument documentId t = Some doc ->
        Forall (fun r => r_type r = type doc) similar
        /\ (Forall (fun word => (List.length word <= 3)%nat)
              (split_ws (title doc)) -> similar = [])).
Proof.
  intros Htypes similar. unfold similar, findSimilar.
  destruct (getDocument documentId t) as [doc|] eqn:Edoc.
  2: { split; [constructor|]. split; [simpl; lia|].
       split; [reflexivity|]. intros doc H. discriminate H. }
  set (o := mkOptions (keywords (title doc)) (Some (limit + 1)) None
              (Some (type doc)) (Some (unity_version doc)) None None).
  assert (Hdoc : type_check (type doc) = true).
  { unfold getDocument in Edoc. apply find_some in Edoc.
    rewrite Forall_forall in Htypes. apply Htypes, Edoc. }
  destruct (returned (search fts_match fts_snippet t o)) as [results|] eqn:Er.
  2: { split; [constructor|]. split; [simpl; lia|].
       split; [discriminate|]. intros doc' H. split; [constructor | reflexivity]. }
  split; [|split; [|split]].
  - apply slice_to_Forall. apply Forall_forall. intros r Hr.
    apply filter_In in Hr. destruct Hr as [_ Hr].
    apply negb_true_iff, js_eqb_neq in Hr. exact Hr.
  - apply slice_to_length.
  - discriminate.
  - intros doc' H. injection H as <-. split.
    + apply slice_to_Forall, filter_Forall.
      apply (search_filtered_type t o (type doc) results eq_refl
               (type_check_not_all (type doc) Hdoc) Er).
    + intros Hshort.
      assert (Hempty : results = []).
      { pose proof (search_cases fts_match fts_snippet t o) as Hc.
        simpl in Hc. unfold o in Hc at 2. simpl o_query in Hc.
        rewrite (keywords_short_title (title doc) Hshort) in Hc.
        simpl in Hc. rewrite Hc in Er. simpl in Er. congruence. }
      rewrite Hempty. unfold slice_to. simpl. apply firstn_nil.
Qed.

End FindSimilar.

(** ** The store: writes and lookups *)

Section StoreRoundTrips.

Import Store DocumentSearch.

Lemma getDocument_absent (i : jsstring) (t : table) :
  has_id i t = false -> getDocument i t = None.
Proof.
  unfold has_id, getDocument. induction t as [|d r IH]; simpl; [reflexivity|].
  destruct (Js.eqb (id d) i); simpl; [discriminate | exact IH].
Qed.

Lemma getDocument_app (i : jsstring) (t1 t2 : table) :
  getDocument i (t1 ++ t2)
  = match getDocument i t1 with
    | Some d => Some d
    | None => getDocument i t2
    end.
Proof.
  unfold getDocument. induction t1 as [|d r IH]; simpl; [reflexivity|].
  destruct (Js.eqb (id d) i); [reflexivity | exact IH].
Qed.

(** A row that [INSERT] accepts is the row its id finds afterwards, and
    every other id finds what it found before. *)
Theorem insert_then_getDocument (d : DocumentRow) (t t' : table) :
  insert d t = Ok t' ->
  getDocument (id d) t' = Some d
  /\ (forall i, i <> id d -> getDocument i t' = getDocument i t)
  /\ List.length t' = S (List.length t).
Proof.
  unfold insert. destruct (type_check (type d)); simpl; [|discriminate].
  destruct (has_id (id d) t) eqn:E; [discriminate|].
  intros H. injection H as <-. split; [|split].
  - rewrite getDocument_app, (getDocument_absent _ _ E). simpl.
    rewrite js_eqb_refl. reflexivity.
  - intros i Hi. rewrite getDocument_app.
    destruct (getDocument i t); [reflexivity|]. simpl.
    assert (Hne : Js.eqb (id d) i = false) by (apply js_eqb_neq; congruence).
    rewrite Hne. reflexivity.
  - rewrite length_app. simpl. lia.
Qed.

Lemma getDocument_filter_other (i j : jsstring) (t : table) :
  i <> j ->
  getDocument i (List.filter (fun r => negb (Js.eqb (id r) j)) t)
  = getDocument i t.
Proof.
  intros Hij. unfold getDocument. induction t as [|d r IH]; simpl; [reflexivity|].
  destruct (Js.eqb (id d) j) eqn:Ej; simpl.
  - apply js_eqb_eq in Ej.
    assert (Hne : Js.eqb (id d) i = false) by (apply js_eqb_neq; congruence).
    rewrite Hne. exact IH.
  - destruct (Js.eqb (id d) i); [reflexivity | exact IH].
Qed.

Lemma has_id_filter_self (j : jsstring) (t : table) :
  has_id j (List.filter (fun r => negb (Js.eqb (id r) j)) t) = false.
Proof.
  unfold has_id. induction t as [|d r IH]; simpl; [reflexivity|].
  destruct (Js.eqb (id d) j) eqn:Ej; simpl; [exact IH|].
  rewrite Ej. exact IH.
Qed.

Lemma ids_filter_NoDup (f : DocumentRow -> bool) (t : table) :
  NoDup (ids t) -> NoDup (ids (List.filter f t)).
Proof.
  unfold ids. induction t as [|d r IH]; simpl; [auto|].
  intros H. inversion H as [|x l Hx Hr]; subst.
  destruct (f d); simpl; [|apply IH, Hr].
  constructor; [|apply IH, Hr].
  intros Hin. apply Hx. apply in_map_iff in Hin. destruct Hin as [y [Hy Hin]].
  apply in_map_iff. exists y. split; [exact Hy|].
  apply filter_In in Hin. apply Hin.
Qed.

(** [INSERT OR REPLACE] of a row of an admitted type always succeeds.  The
    id of the row finds the new row afterwards, every other id finds what
    it found before, and the ids stay distinct. *)
Theorem insert_or_replace_then_getDocument (d : DocumentRow) (t : table) :
  type_check (type d) = true ->
  NoDup (ids t) ->
  exists t',
    insert_or_replace d t = Ok t'
    /\ getDocument (id d) t' = Some d
    /\ (forall i, i <> id d -> getDocument i t' = getDocument i t)
    /\ NoDup (ids t').
Proof.
  intros Hty Hnodup. unfold insert_or_replace. rewrite Hty. simpl.
  eexists. split; [reflexivity|]. split; [|split].
  - rewrite getDocument_app.
    rewrite (getDocument_absent _ _ (has_id_filter_self (id d) t)). simpl.
    rewrite js_eqb_refl. reflexivity.
  - intros i Hi. rewrite getDocument_app, (getDocument_filter_other _ _ _ Hi).
    destruct (getDocument i t); [reflexivity|]. simpl.
    assert (Hne : Js.eqb (id d) i = false) by (apply js_eqb_neq; congruence).
    rewrite Hne. reflexivity.
  - rewrite ids_app. simpl. apply NoDup_app.
    + apply ids_filter_NoDup, Hnodup.
    + constructor; [intros [] | constructor].
    + intros a Ha [<- | []].
      apply has_id_In in Ha. rewrite has_id_filter_self in Ha. discriminate.
Qed.

End StoreRoundTrips.

(** ** Pagination: pages and requests *)

Section Pages.

Import Store Pagination.

(** A page that announces more content is full; a page that does not holds
    all that is left; no page is longer than [limit]. *)
Theorem page_shape (content : jsstring) (offset limit : Z) :
  0 <= offset -> 0 <= limit ->
  let p := paginate content offset limit in
  (hasMore p = true -> Z.of_nat (List.length (contentChunk p)) = limit)
  /\ (hasMore p = false ->
      contentChunk p = skipn (Z.to_nat offset) content)
  /\ Z.of_nat (List.length (contentChunk p)) <= limit.
Proof.
  intros Ho Hl. simpl. rewrite substring_window by assumption.
  split; [|split].
  - intros H. apply Z.ltb_lt in H.
    rewrite length_firstn, length_skipn. lia.
  - intros H. apply Z.ltb_ge in H.
    apply firstn_all2. rewrite length_skipn. lia.
  - rewrite length_firstn. lia.
Qed.

(** Two pages read one after the other are the page of their joint size. *)
Theorem pages_compose (content : jsstring) (offset l1 l2 : Z) :
  0 <= offset -> 0 <= l1 -> 0 <= l2 ->
  contentChunk (paginate content offset l1)
  ++ contentChunk (paginate content (offset + l1) l2)
  = contentChunk (paginate content offset (l1 + l2)).
Proof.
  intros Ho H1 H2. simpl. rewrite !substring_window by lia.
  replace (Z.to_nat (offset + l1)) with (Z.to_nat offset + Z.to_nat l1)%nat
    by lia.
  replace (Z.to_nat (l1 + l2)) with (Z.to_nat l1 + Z.to_nat l2)%nat by lia.
  rewrite skipn_add. apply firstn_add.
Qed.

Lemma read_all_enough (content : jsstring) (limit : Z) (fuel : nat)
    (offset : Z) :
  0 < limit -> 0 <= offset -> (1 <= fuel)%nat ->
  Z.of_nat (List.length content) <= offset + Z.of_nat fuel * limit ->
  read_all fuel content offset limit = Some (skipn (Z.to_nat offset) content).
Proof.
  intros Hl. revert offset.
  induction fuel as [|fuel IH]; intros offset Ho Hf Hn; [lia|].
  simpl. rewrite substring_window by lia.
  destruct (offset + limit <? Z.of_nat (List.length content)) eqn:E.
  - apply Z.ltb_lt in E.
    assert (Hfuel : (1 <= fuel)%nat) by (destruct fuel; lia).
    rewrite IH by (try lia; nia).
    f_equal.
    replace (Z.to_nat (offset + limit))
      with (Z.to_nat offset + Z.to_nat limit)%nat by lia.
    rewrite skipn_add. apply firstn_skipn.
  - apply Z.ltb_ge in E. f_equal.
    apply firstn_all2. rewrite length_skipn. lia.
Qed.

Lemma read_all_short (content : jsstring) (limit : Z) (fuel : nat)
    (offset : Z) :
  0 < limit -> 0 <= offset ->
  offset + Z.of_nat fuel * limit < Z.of_nat (List.length content) ->
  read_all fuel content offset limit = None.
Proof.
  intros Hl. revert offset.
  induction fuel as [|fuel IH]; intros offset Ho Hn; [reflexivity|].
  simpl.
  assert (E : (offset + limit <? Z.of_nat (List.length content)) = true)
    by (apply Z.ltb_lt; nia).
  rewrite E, IH by (try lia; nia). reflexivity.
Qed.

(** Reading a content of [N] characters in pages of [limit] takes as many
    requests as pages: a client that allows [k] requests gets the whole
    content when [k >= 1] and [k * limit >= N], and gives up otherwise; it
    never gets anything but the whole content. *)
Theorem read_all_requests (content : jsstring) (limit : Z) (k : nat) :
  0 < limit ->
  let N := Z.of_nat (List.length content) in
  (read_all k content 0 limit = Some content
   <-> (1 <= k)%nat /\ N <= Z.of_nat k * limit)
  /\ (read_all k content 0 limit = None
      <-> k = O \/ Z.of_nat k * limit < N).
Proof.
  intros Hl N.
  destruct k as [|k].
  { simpl. split.
    - split; [discriminate | intros [H _]; lia].
    - split; [intros _; left; reflexivity | reflexivity]. }
  destruct (Z_le_gt_dec N (Z.of_nat (S k) * limit)) as [Hle | Hgt].
  - rewrite read_all_enough by (unfold N in *; lia). simpl skipn. split.
    + split; [intros _; split; [lia | exact Hle] | reflexivity].
    + split; [discriminate | intros [H | H]; [discriminate | lia]].
  - rewrite read_all_short by (unfold N in *; lia). split.
    + split; [discriminate | intros [_ H]; lia].
    + split; [intros _; right; lia | reflexivity].
Qed.

Variable extractTitle : jsstring -> jsstring.
Variable extractContent : jsstring -> jsstring.
Variable extractCodeBlocks : jsstring -> list jsstring.
Variable extracted_file : jsstring -> option readFile_result.
Variable unityVersion : jsstring.

(** [read_unity_doc] answers "not found" exactly when no row of version
    6000.1 has the path and no extracted file has it either; the version
    recorded in [version_info] plays no part in the lookup. *)
Theorem read_unity_doc_not_found_iff (t : table) (path : jsstring)
    (offset limit : Z) :
  read_unity_doc extractTitle extractContent extractCodeBlocks extracted_file
    unityVersion t path offset limit = NotFound path
  <-> (forall d, In d t ->
         ~ (file_path d = path /\ unity_version d = lit "6000.1"))
      /\ extracted_file path = None.
Proof.
  unfold read_unity_doc, get_by_path.
  destruct (List.find _ t) as [doc|] eqn:E.
  - apply find_some in E. destruct E as [Hin Hd].
    apply andb_true_iff in Hd. rewrite !js_eqb_eq in Hd.
    split; [discriminate|]. intros [H _]. exfalso. apply (H doc Hin Hd).
  - assert (Hnone : forall d, In d t ->
              ~ (file_path d = path /\ unity_version d = lit "6000.1")).
    { intros d Hin [H1 H2]. pose proof (find_none _ _ E d Hin) as Hf.
      simpl in Hf. rewrite <- H1, H2, !js_eqb_refl in Hf. discriminate. }
    destruct (extracted_file path) as [[message | html]|].
    + split; [discriminate | intros [_ H]; discriminate H].
    + split; [discriminate | intros [_ H]; discriminate H].
    + split; [intros _; split; [exact Hnone | reflexivity] | reflexivity].
Qed.

End Pages.

(** ** Sections: shape and lookup *)

Section SectionShape.

Import Store Sections Words Tools.

Lemma lit_inj (a b : string) : lit a = lit b -> a = b.
Proof.
  unfold lit. intros H.
  apply (f_equal (List.map ascii_of_N)) in H.
  rewrite !map_map in H.
  rewrite (map_ext _ (fun x => x) ascii_N_embedding) in H.
  rewrite (map_ext _ (fun x => x) ascii_N_embedding) in H.
  rewrite !map_id in H.
  apply (f_equal string_of_list_ascii) in H.
  rewrite !string_of_list_ascii_of_string in H. exact H.
Qed.

Lemma to_int_not_nil (z : Z) :
  Z.to_int z <> Decimal.Pos Decimal.Nil /\ Z.to_int z <> Decimal.Neg Decimal.Nil.
Proof.
  destruct z as [|p|p]; simpl; split; try discriminate;
    intros H; injection H as H; exact (DecimalPos.Unsigned.to_uint_nonnil p H).
Qed.

(** Two integers print the same only when they are equal. *)
Lemma of_Z_inj (a b : Z) : of_Z a = of_Z b -> a = b.
Proof.
  unfold of_Z. intros H. apply lit_inj in H.
  apply (f_equal NilZero.int_of_string) in H.
  destruct (to_int_not_nil a) as [Ha1 Ha2], (to_int_not_nil b) as [Hb1 Hb2].
  rewrite !NilZero.isi in H by assumption.
  injection H as H. apply DecimalZ.to_int_inj, H.
Qed.

Lemma section_id_of_inj (i j : nat) : section_id_of i = section_id_of j -> i = j.
Proof.
  unfold section_id_of. intros H. apply app_inv_head in H.
  apply of_Z_inj in H. lia.
Qed.

(** A property of every heading the traversal builds holds of every member
    of the array. *)
Lemma headings_below_all (P : Heading -> Prop) :
  (forall here k lv tag kids following,
     heading_level tag = Some lv ->
     P (mkHeading (here ++ [k]) lv (Elem tag kids) following)) ->
  forall n here h, In h (headings_below here n) -> P h.
Proof.
  intros HP.
  induction n as [s | tag kids IH] using node_induction; intros here h; simpl;
    [contradiction|].
  generalize O. induction kids as [|c r IHr]; intros k; simpl; [contradiction|].
  inversion IH as [|x l Hc Hr]; subst.
  rewrite !in_app_iff. intros [Hown | [Hbelow | Hrest]].
  - destruct c as [s | t ks]; [contradiction|].
    destruct (heading_level t) as [lv|] eqn:E; [|contradiction].
    destruct Hown as [<- | []]. apply HP, E.
  - apply (Hc _ _ Hbelow).
  - apply (IHr Hr _ Hrest).
Qed.

Lemma heading_level_range (tag : jsstring) (lv : Z) :
  heading_level tag = Some lv -> 1 <= lv <= 6.
Proof.
  unfold heading_level. destruct tag as [|h [|d [|x r]]]; try discriminate.
  destruct (N.eqb h 104 && in_range 49 54 d)%N eqn:E; [|discriminate].
  intros H. injection H as <-.
  unfold in_range in E. rewrite !andb_true_iff, !N.leb_le in E. lia.
Qed.

Lemma trimEnd_app (t y : jsstring) :
  trimEnd (t ++ y)
  = if is_empty (trimEnd y) then trimEnd t else t ++ trimEnd y.
Proof.
  induction t as [|c r IH]; simpl.
  - destruct (trimEnd y); reflexivity.
  - rewrite IH. destruct (is_empty (trimEnd y)) eqn:E; [reflexivity|].
    destruct (trimEnd y) as [|a y']; [discriminate E|].
    destruct r; simpl; rewrite andb_false_r; reflexivity.
Qed.

(** Trimming a trimmed string followed by more text keeps the string as a
    prefix. *)
Lemma trim_keeps_prefix (x y : jsstring) :
  exists rest, trim (trim x ++ y) = trim x ++ rest.
Proof.
  destruct (trim x) as [|c r] eqn:E.
  - exists (trim y). reflexivity.
  - assert (Hclean : starts_clean (c :: r) = true).
    { rewrite <- E. unfold trim. apply starts_clean_trimEnd, starts_clean_trimStart. }
    assert (Hend : trimEnd (c :: r) = c :: r).
    { rewrite <- E. unfold trim. apply trimEnd_idempotent. }
    unfold trim at 1.
    rewrite (trimStart_clean ((c :: r) ++ y)) by exact Hclean.
    rewrite trimEnd_app, Hend.
    destruct (is_empty (trimEnd y)); [exists []; rewrite app_nil_r | eexists];
      reflexivity.
Qed.

Lemma accumulate_extends (nextHeading : option Heading)
    (following : list (position * node)) (sectionContent : jsstring) :
  exists rest,
    accumulate nextHeading following sectionContent = sectionContent ++ rest.
Proof.
  revert sectionContent.
  induction following as [|[q m] r IH]; intros acc; simpl.
  - exists []. rewrite app_nil_r. reflexivity.
  - destruct (is_node q nextHeading); [exists []; rewrite app_nil_r; reflexivity|].
    destruct (is_heading m); [exists []; rewrite app_nil_r; reflexivity|].
    destruct (truthy (trim (text m))); [|apply IH].
    destruct (IH (acc ++ trim (text m) ++ Sections.nl)) as [rest Hrest].
    exists ((trim (text m) ++ Sections.nl) ++ rest).
    rewrite Hrest, <- !app_assoc.
    reflexivity.
Qed.

Lemma sections_from_all (P : DocumentSection -> Prop) (hs : list Heading) :
  (forall index h later, In h hs -> P (section_of index h later)) ->
  forall start, Forall P (sections_from start hs).
Proof.
  induction hs as [|h r IH]; intros HP start; simpl; constructor.
  - apply HP. left. reflexivity.
  - apply IH. intros index h' later Hin. apply HP. right. exact Hin.
Qed.

(** Every section has a trimmed title, a trimmed content that starts with
    the title, and a level from 1 to 6; there is one section per
    heading. *)
Theorem sections_well_formed (root : node) :
  Forall (fun s =>
            trim (s_title s) = s_title s
            /\ trim (s_content s) = s_content s
            /\ (exists rest, s_content s = s_title s ++ rest)
            /\ 1 <= s_level s <= 6)
    (extractSections root)
  /\ List.length (extractSections root) = List.length (headings root).
Proof.
  split.
  - unfold extractSections. apply sections_from_all.
    intros index h later Hin. unfold section_of.
    cbn [s_title s_content s_level].
    split; [apply trim_idempotent|]. split; [apply trim_idempotent|]. split.
    + destruct (accumulate_extends (find_nextHeading (h_level h) later)
                  (h_following h)
                  (trim (text (h_element h)) ++ Sections.nl ++ Sections.nl))
        as [rest ->].
      rewrite <- app_assoc. apply trim_keeps_prefix.
    + revert Hin. unfold headings.
      apply (headings_below_all (fun h => 1 <= h_level h <= 6)).
      intros here k lv tag kids following Hlv. simpl.
      apply (heading_level_range tag lv Hlv).
  - unfold extractSections. generalize O.
    induction (headings root) as [|h r IH]; intros start; simpl;
      [reflexivity | rewrite IH; reflexivity].
Qed.

Lemma sections_from_ids (hs : list Heading) (start : nat) :
  List.map s_id (sections_from start hs)
  = List.map section_id_of (seq start (List.length hs)).
Proof.
  revert start; induction hs as [|h r IH]; intros start; simpl; [reflexivity|].
  rewrite IH. reflexivity.
Qed.

Lemma find_by_section_id (sections : list DocumentSection) (start : nat) :
  List.map s_id sections
  = List.map section_id_of (seq start (List.length sections)) ->
  forall index s, nth_error sections index = Some s ->
    List.find (fun x => Js.eqb (s_id x) (section_id_of (start + index)))
      sections = Some s.
Proof.
  revert start; induction sections as [|x r IH]; intros start Hids index s;
    [destruct index; discriminate|].
  simpl in Hids. injection Hids as Hx Hr.
  destruct index as [|index]; simpl.
  - intros H. injection H as <-. rewrite Nat.add_0_r, Hx, js_eqb_refl.
    reflexivity.
  - intros H.
    assert (Hne : Js.eqb (s_id x) (section_id_of (start + S index)) = false).
    { apply js_eqb_neq. rewrite Hx. intros Heq.
      apply section_id_of_inj in Heq. lia. }
    rewrite Hne.
    replace (start + S index)%nat with (S start + index)%nat by lia.
    apply (IH (S start) Hr index s H).
Qed.

Lemma NoDup_map_injective (A B : Type) (f : A -> B) (l : list A) :
  (forall x y, f x = f y -> x = y) -> NoDup l -> NoDup (List.map f l).
Proof.
  intros Hf. induction 1 as [|x r Hx Hr IH]; simpl; constructor; [|exact IH].
  intros Hin. apply in_map_iff in Hin. destruct Hin as [y [Hy Hin]].
  apply Hf in Hy. subst y. exact (Hx Hin).
Qed.

Variable load : jsstring -> node.
Variable unityVersion : jsstring.

(** The ids of the sections of a document are [section-0], [section-1],
    ... and differ from one another.  [read_unity_doc_section] answers a
    request for [section-i] with the i-th section, and a request for an
    id that no section has with the list of the ids. *)
Theorem read_unity_doc_section_lookup (t : table) (path : jsstring)
    (doc : DocumentRow) :
  get_by_path path (lit "6000.1") t = Some doc ->
  let sections := extractSections (load (html doc)) in
  List.map s_id sections
  = List.map section_id_of (seq O (List.length sections))
  /\ NoDup (List.map s_id sections)
  /\ (forall index s, nth_error sections index = Some s ->
        read_unity_doc_section load unityVersion t path (section_id_of index)
        = Text (section_header unityVersion doc path (section_id_of index) s
                ++ s_content s))
  /\ (forall section_id, ~ In section_id (List.map s_id sections) ->
        read_unity_doc_section load unityVersion t path section_id
        = Text (lit "Section not found: " ++ section_id
                ++ lit ". Available sections: "
                ++ join (lit ", ") (List.map s_id sections))).
Proof.
  intros Hdoc sections.
  assert (Hids : List.map s_id sections
                 = List.map section_id_of (seq O (List.length sections))).
  { unfold sections, extractSections. rewrite sections_from_ids.
    f_equal. f_equal. clear. generalize O.
    induction (headings (load (html doc))) as [|h r IH]; intros start; simpl;
      [reflexivity | rewrite <- IH; reflexivity]. }
  split; [exact Hids|]. split; [|split].
  - rewrite Hids. apply NoDup_map_injective; [|apply seq_NoDup].
    intros i j. apply section_id_of_inj.
  - intros index s Hs. unfold read_unity_doc_section. rewrite Hdoc.
    fold sections.
    pose proof (find_by_section_id sections O Hids index s Hs) as Hfind.
    change (O + index)%nat with index in Hfind.
    rewrite Hfind. reflexivity.
  - intros section_id Hnot. unfold read_unity_doc_section. rewrite Hdoc.
    fold sections.
    destruct (List.find _ sections) as [s|] eqn:E; [|reflexivity].
    apply find_some in E. destruct E as [Hin Heq]. apply js_eqb_eq in Heq.
    exfalso. apply Hnot. rewrite <- Heq. apply in_map, Hin.
Qed.

End SectionShape.

(** ** The indexer: counters, scope and rows *)

Section IndexerRuns.

Import Store Indexer PackageIndexer.

Variable sha256_hex : jsstring -> jsstring.
Variable extractTitle : jsstring -> jsstring.
Variable extractContent : jsstring -> jsstring.
Variable now : jsstring.
Variable argv2 : option jsstring.

Notation version := (Indexer.version argv2).
Notation process_file :=
  (Indexer.process_file sha256_hex extractTitle extractContent now argv2).
Notation process_entry :=
  (Indexer.process_entry sha256_hex extractTitle extractContent now argv2).
Notation processDirectory :=
  (Indexer.processDirectory sha256_hex extractTitle extractContent now argv2).
Notation main :=
  (Indexer.main sha256_hex extractTitle extractContent now argv2).
Notation document_id := (Indexer.document_id sha256_hex argv2).
Notation page_row :=
  (IndexedRows.page_row sha256_hex extractTitle extractContent now argv2).

(** The parser only ever names the two types the table admits. *)
Lemma detectDocumentType_admitted (filePath : jsstring) :
  type_check (Parser.detectDocumentType filePath) = true.
Proof.
  unfold Parser.detectDocumentType.
  destruct (includes filePath (lit "Manual/") || includes filePath (lit "/Manual/"));
    [reflexivity|].
  destruct (includes filePath (lit "ScriptReference/")
            || includes filePath (lit "/ScriptReference/")); reflexivity.
Qed.

(** A page is skipped for one of two reasons only: its file cannot be
    read, or its id is already in the table.  Otherwise its row is added
    and counted. *)
Lemma process_file_outcome (relativePath : jsstring)
    (data : option jsstring) (st : Run) :
  process_file relativePath data st
  = match data with
    | Some html =>
        if has_id (document_id relativePath) (store st) then count_error st
        else mkRun (store st ++ [page_row relativePath html])
               (processedCount st + 1) (errorCount st)
    | None => count_error st
    end.
Proof.
  unfold Indexer.process_file, insert. destruct data as [html|]; [|reflexivity].
  simpl. rewrite detectDocumentType_admitted. simpl.
  destruct (has_id _ (store st)); reflexivity.
Qed.

Lemma for_each_done_fold (A B : Type) (body : A -> Run -> outcome)
    (files : A -> list B) (step : Run -> B -> Run) (l : list A) :
  Forall (fun a => forall st st', body a st = Done st' ->
            st' = fold_left step (files a) st) l ->
  forall st st', for_each body l st = Done st' ->
    st' = fold_left step (flat_map files l) st.
Proof.
  induction 1 as [|a r Ha Hr IH]; intros st st'; simpl.
  - intros H. injection H as <-. reflexivity.
  - destruct (body a st) as [st1|st1] eqn:E; [|discriminate].
    intros H. rewrite fold_left_app, <- (Ha st st1 E). apply IH, H.
Qed.

Lemma process_entry_done_fold (e : entry) :
  forall prefix st st',
    process_entry prefix e st = Done st' ->
    st' = fold_left (fun s file => process_file (fst file) (snd file) s)
            (html_below prefix e) st.
Proof.
  induction e as [name data | name | name entries IH] using entry_induction;
    intros prefix st st'; simpl.
  - destruct (endsWith name (lit ".html")); intros H; injection H as <-;
      reflexivity.
  - discriminate.
  - apply for_each_done_fold.
    eapply Forall_impl; [|exact IH]. intros e He. apply He.
Qed.

Lemma fold_counts (files : list (jsstring * option jsstring)) (st : Run) :
  let st' := fold_left (fun s file => process_file (fst file) (snd file) s)
               files st in
  processedCount st' + errorCount st'
  = processedCount st + errorCount st + Z.of_nat (List.length files)
  /\ processedCount st <= processedCount st'
  /\ errorCount st <= errorCount st'
  /\ Z.of_nat (List.length (store st'))
     = Z.of_nat (List.length (store st)) + (processedCount st' - processedCount st).
Proof.
  revert st. induction files as [|[path data] r IH]; intros st; simpl.
  - lia.
  - specialize (IH (process_file path data st)). simpl in IH.
    rewrite process_file_outcome in *.
    destruct data as [html|];
      [destruct (has_id (document_id path) (store st))|];
      simpl in *; try rewrite length_app in *; simpl in *; lia.
Qed.

(** A run that completes handles the files that [findHtmlFiles] lists, in
    that order, one after the other: every [.html] file below the
    directory is either added to the table and counted as processed, or
    counted as an error, and the table grows by the number processed. *)
Theorem completed_run_counts (docs : option (list entry)) (t : table)
    (st : Run) :
  processDirectory docs (mkRun t 0 0) = Done st ->
  st = fold_left (fun s file => process_file (fst file) (snd file) s)
         (findHtmlFiles docs) (mkRun t 0 0)
  /\ processedCount st + errorCount st
     = Z.of_nat (List.length (findHtmlFiles docs))
  /\ 0 <= processedCount st /\ 0 <= errorCount st
  /\ Z.of_nat (List.length (store st))
     = Z.of_nat (List.length t) + processedCount st.
Proof.
  intros H.
  assert (Hfold : st = fold_left
                         (fun s file => process_file (fst file) (snd file) s)
                         (findHtmlFiles docs) (mkRun t 0 0)).
  { destruct docs as [entries|]; simpl in *; [|discriminate].
    revert H. apply for_each_done_fold.
    apply Forall_forall. intros e _ st1 st2. apply process_entry_done_fold. }
  split; [exact Hfold|].
  pose proof (fold_counts (findHtmlFiles docs) (mkRun t 0 0)) as Hc.
  simpl in Hc. rewrite <- Hfold in Hc. lia.
Qed.

(** A run leaves the rows of every other version as they were, whether it
    completes or fails. *)
Theorem other_versions_untouched (docs : option (list entry))
    (optimize_ok : bool) (t : table) :
  delete_version version (fst (main docs optimize_ok t))
  = delete_version version t.
Proof.
  rewrite main_store.
  set (cleared := delete_version version t).
  assert (Happ : exists added,
             store (final (processDirectory docs (mkRun cleared 0 0)))
             = cleared ++ added
             /\ Forall (fun d => unity_version d = version) added).
  { apply (related_final (fun a _ => exists added, store a = cleared ++ added
             /\ Forall (fun d => unity_version d = version) added)
             _ (processDirectory docs (mkRun cleared 0 0))).
    apply processDirectory_related.
    - intros path data st1 _. apply process_file_appends.
    - exists []. simpl. rewrite app_nil_r. auto. }
  destruct Happ as [added [-> Hver]].
  apply delete_version_restart, Hver.
Qed.

Lemma process_file_page_rows (path : jsstring) (data : option jsstring)
    (base : table) (st : Run) :
  (exists added, store st = base ++ added
     /\ Forall (fun d => exists p html, d = page_row p html) added) ->
  exists added, store (process_file path data st) = base ++ added
     /\ Forall (fun d => exists p html, d = page_row p html) added.
Proof.
  intros [added [Hst Hrows]]. rewrite process_file_outcome.
  destruct data as [html|]; [|exists added; auto].
  destruct (has_id _ (store st)); [exists added; auto|].
  exists (added ++ [page_row path html]). simpl. rewrite Hst, <- app_assoc.
  split; [reflexivity|]. apply Forall_app. split; [exact Hrows|].
  constructor; [eauto | constructor].
Qed.

(** After a run, completed or not, every row of the indexed version is a
    row this run wrote: its type is the one its path determines, its url
    is [unity://<version>/<path>], its id is the digest of version and
    path, and it carries no package. *)
Theorem indexed_rows_are_pages (docs : option (list entry))
    (optimize_ok : bool) (t : table) :
  Forall (fun d => unity_version d = version ->
            exists path html, d = page_row path html)
    (fst (main docs optimize_ok t)).
Proof.
  rewrite main_store.
  set (cleared := delete_version version t).
  assert (Happ : exists added,
             store (final (processDirectory docs (mkRun cleared 0 0)))
             = cleared ++ added
             /\ Forall (fun d => exists p html, d = page_row p html) added).
  { apply (related_final (fun a _ => exists added, store a = cleared ++ added
             /\ Forall (fun d => exists p html, d = page_row p html) added)
             _ (processDirectory docs (mkRun cleared 0 0))).
    apply processDirectory_related.
    - intros path data st1 _. apply process_file_page_rows.
    - exists []. simpl. rewrite app_nil_r. auto. }
  destruct Happ as [added [-> Hrows]].
  apply Forall_app. split.
  - unfold cleared, delete_version. apply Forall_forall. intros d Hd Hv.
    apply filter_In in Hd. destruct Hd as [_ Hd].
    rewrite Hv, js_eqb_refl in Hd. discriminate.
  - eapply Forall_impl; [|exact Hrows]. intros d Hd _. exact Hd.
Qed.

End IndexerRuns.

(** ** The package indexer *)

Section PackageRuns.

Import Store Indexer PackageIndexer.

Variable sha256_hex : jsstring -> jsstring.
Variable extractTitle : jsstring -> jsstring.
Variable extractContent : jsstring -> jsstring.
Variable now : jsstring.
Variable packageName : jsstring.
Variable packageVersion : jsstring.

Lemma index_file_rejected (file : jsstring * option jsstring) (st : Progress) :
  index_file sha256_hex extractTitle extractContent now packageName
    packageVersion file st
  = mkProgress (documents st) (processedFiles st) (failedFiles st + 1).
Proof.
  unfold index_file. destruct (snd file) as [html|]; reflexivity.
Qed.

(** With the [CHECK] the table is created with, the package indexer adds
    nothing: every [INSERT OR REPLACE] of a [package-docs] row fails, the
    [catch] counts the file as failed, and the transaction commits an
    unchanged table. *)
Theorem package_rows_rejected (docs : option (list entry)) (t : table) :
  indexPackageDocumentation sha256_hex extractTitle extractContent now
    packageName packageVersion docs t
  = mkProgress t 0 (Z.of_nat (List.length (findHtmlFiles docs))).
Proof.
  unfold indexPackageDocumentation.
  assert (H : forall files st,
             fold_left (fun s file =>
                          index_file sha256_hex extractTitle extractContent now
                            packageName packageVersion file s) files st
             = mkProgress (documents st) (processedFiles st)
                 (failedFiles st + Z.of_nat (List.length files))).
  { induction files as [|f r IH]; intros st.
    - simpl. rewrite Z.add_0_r. destruct st; reflexivity.
    - cbn [fold_left]. rewrite IH, index_file_rejected. simpl documents.
      simpl processedFiles. simpl failedFiles. f_equal.
      change (List.length (f :: r)) with (S (List.length r)). lia. }
  rewrite H. reflexivity.
Qed.

End PackageRuns.

(** ** Migrations *)

Section MigrationFacts.

Import Migration.

Lemma fold_max_start (l : list Z) (v : Z) : v <= fold_left Z.max l v.
Proof.
  revert v; induction l as [|a r IH]; intros v; simpl; [lia|].
  specialize (IH (Z.max v a)). lia.
Qed.

Lemma fold_max_ge (l : list Z) (v x : Z) :
  x = v \/ In x l -> x <= fold_left Z.max l v.
Proof.
  revert v; induction l as [|a r IH]; intros v; simpl.
  - intros [H | []]. lia.
  - intros [H | [H | H]].
    + pose proof (fold_max_start r (Z.max v a)). lia.
    + pose proof (fold_max_start r (Z.max v a)). lia.
    + apply IH. right. exact H.
Qed.

Lemma current_version_ge (rows : list Z) (cols : option (list jsstring))
    (x : Z) :
  0 <= x -> In x rows -> x <= getCurrentVersion (mkDatabase (Some rows) cols).
Proof.
  intros Hx Hin. unfold getCurrentVersion. simpl.
  destruct rows as [|v r]; [contradiction|].
  apply fold_max_ge. destruct Hin as [-> | H]; auto.
Qed.

(** After a migration that returns, no migration is needed, and migrating
    again changes nothing; a migration that throws leaves the database as
    it was. *)
Theorem migrate_settles (db : Database) :
  let after := fst (migrate db) in
  (snd (migrate db) = true ->
     needsMigration after = false /\ migrate after = (after, true))
  /\ (snd (migrate db) = false -> after = db).
Proof.
  intros after. unfold after.
  assert (Hsettled : forall d, needsMigration d = false -> migrate d = (d, true)).
  { intros d Hd. unfold migrate. fold (needsMigration d). rewrite Hd.
    reflexivity. }
  destruct (needsMigration db) eqn:En.
  2: { rewrite (Hsettled db En). simpl.
       split; [intros _; split; [exact En | apply Hsettled, En]
              | discriminate]. }
  assert (Hm : migrate db
               = match runMigrations (getCurrentVersion db) db with
                 | Throw => (db, false)
                 | Ok db1 =>
                     match updateSchemaVersion SCHEMA_VERSION db1 with
                     | Throw => (db, false)
                     | Ok db2 => (db2, true)
                     end
                 end).
  { unfold migrate. fold (needsMigration db). rewrite En. reflexivity. }
  rewrite Hm. clear Hm.
  destruct (runMigrations (getCurrentVersion db) db) as [db1|]; simpl;
    [|split; [discriminate | reflexivity]].
  unfold updateSchemaVersion.
  destruct (schema_version db1) as [rows|]; simpl;
    [|split; [discriminate | reflexivity]].
  split; [|discriminate]. intros _.
  assert (Hdone : needsMigration
            (mkDatabase
               (Some (List.filter (fun v => negb (v =? SCHEMA_VERSION)) rows
                      ++ [SCHEMA_VERSION]))
               (documents_added db1)) = false).
  { unfold needsMigration. apply Z.ltb_ge.
    apply current_version_ge; [unfold SCHEMA_VERSION; lia|].
    apply in_or_app. right. left. reflexivity. }
  split; [exact Hdone | apply Hsettled, Hdone].
Qed.

Lemma has_column_app (c : jsstring) (l1 l2 : list jsstring) :
  has_column c (l1 ++ l2) = has_column c l1 || has_column c l2.
Proof. unfold has_column. apply existsb_app. Qed.

(** A migration throws exactly when one is needed and the [documents]
    table is already there with one of the package columns: the
    [ALTER TABLE] of version 2 then fails on the column that exists. *)
Theorem migrate_throws_iff (db : Database) :
  snd (migrate db) = false
  <-> needsMigration db = true
      /\ exists cols, documents_added db = Some cols
           /\ (has_column (lit "package_name") cols
               || has_column (lit "package_version") cols) = true.
Proof.
  unfold migrate. fold (needsMigration db).
  destruct (needsMigration db) eqn:En; simpl.
  2: { split; [discriminate | intros [H _]; discriminate H]. }
  assert (Hlt : getCurrentVersion db < 1)
    by (unfold needsMigration, SCHEMA_VERSION in En; apply Z.ltb_lt, En).
  unfold runMigrations.
  assert (E1 : (getCurrentVersion db <? 1) = true) by (apply Z.ltb_lt; lia).
  assert (E2 : (getCurrentVersion db <? 2) = true) by (apply Z.ltb_lt; lia).
  rewrite E1, E2.
  unfold migrateToV2, add_column, migrateToV1, updateSchemaVersion.
  cbn [documents_added schema_version].
  destruct (documents_added db) as [cols|] eqn:Ec.
  - rewrite (has_column_app (lit "package_name") base_columns cols).
    change (has_column (lit "package_name") base_columns) with false.
    cbn [orb].
    destruct (has_column (lit "package_name") cols) eqn:Epn.
    + simpl. split; [|reflexivity]. intros _. split; [reflexivity|].
      exists cols. split; [reflexivity | rewrite Epn; reflexivity].
    + cbn [documents_added schema_version].
      rewrite (has_column_app (lit "package_version") base_columns
                 (cols ++ [lit "package_name"])).
      rewrite (has_column_app (lit "package_version") cols
                 [lit "package_name"]).
      change (has_column (lit "package_version") base_columns) with false.
      change (has_column (lit "package_version") [lit "package_name"])
        with false.
      rewrite orb_false_r. cbn [orb].
      destruct (has_column (lit "package_version") cols) eqn:Epv.
      * simpl. split; [|reflexivity]. intros _. split; [reflexivity|].
        exists cols. split; [reflexivity | rewrite Epv; apply orb_true_r].
      * cbn [documents_added schema_version].
        destruct (schema_version db); simpl;
          (split; [discriminate |]);
          intros [_ [cols' [Hc Hh]]]; injection Hc as <-;
          rewrite Epn, Epv in Hh; discriminate Hh.
  - cbn [orb].
    change (has_column (lit "package_name") (base_columns ++ [])) with false.
    cbn iota. cbn [documents_added schema_version].
    change (has_column (lit "package_version")
              (base_columns ++ [] ++ [lit "package_name"])) with false.
    cbn iota. cbn [documents_added schema_version].
    destruct (schema_version db); simpl;
      (split; [discriminate | intros [_ [cols' [Hc _]]]; discriminate Hc]).
Qed.

(** A migration that runs and returns has created what was missing, added
    the two package columns after the columns that were there, and set
    the version to 1; when none is needed, nothing is changed, so a
    database at version 1 without the package columns stays without
    them. *)
Theorem migrate_adds_package_columns (db : Database) :
  snd (migrate db) = true ->
  if needsMigration db
  then documents_added (fst (migrate db))
       = Some (match documents_added db with Some cols => cols | None => [] end
               ++ [lit "package_name"; lit "package_version"])
       /\ getCurrentVersion (fst (migrate db)) = 1
  else fst (migrate db) = db.
Proof.
  unfold migrate. fold (needsMigration db).
  destruct (needsMigration db) eqn:En; [|reflexivity].
  assert (Hlt : getCurrentVersion db < 1)
    by (unfold needsMigration, SCHEMA_VERSION in En; apply Z.ltb_lt, En).
  unfold runMigrations.
  assert (E1 : (getCurrentVersion db <? 1) = true) by (apply Z.ltb_lt; lia).
  assert (E2 : (getCurrentVersion db <? 2) = true) by (apply Z.ltb_lt; lia).
  rewrite E1, E2.
  assert (Hversion : forall rows cols,
            (forall x, In x rows -> x < 1) ->
            getCurrentVersion
              (mkDatabase
                 (Some (List.filter (fun v => negb (v =? SCHEMA_VERSION)) rows
                        ++ [SCHEMA_VERSION])) cols) = 1).
  { intros rows cols Hrows. unfold getCurrentVersion. simpl.
    assert (Hfold : forall l v, v <= 1 -> (forall x, In x l -> x <= 1) ->
                      fold_left Z.max (l ++ [1]) v = 1).
    { induction l as [|a r IH]; intros v Hv Hl; simpl; [lia|].
      apply IH; [|intros x Hx; apply Hl; right; exact Hx].
      specialize (Hl a (or_introl eq_refl)). lia. }
    destruct (List.filter _ rows ++ [SCHEMA_VERSION]) as [|v r] eqn:E.
    { destruct (List.filter _ rows); discriminate E. }
    destruct (List.filter (fun v => negb (v =? SCHEMA_VERSION)) rows)
      as [|a l] eqn:Ef; simpl in E; injection E as <- <-.
    - reflexivity.
    - assert (Hin : forall x, In x (a :: l) -> x <= 1).
      { intros x Hx. rewrite <- Ef in Hx. apply filter_In in Hx.
        specialize (Hrows x (proj1 Hx)). lia. }
      apply Hfold; [apply Hin; left; reflexivity|].
      intros x Hx. apply Hin. right. exact Hx. }
  assert (Hrows : forall rows, schema_version db = Some rows ->
                    forall x, In x rows -> x < 1).
  { intros rows Hs x Hx. unfold getCurrentVersion in Hlt. rewrite Hs in Hlt.
    destruct rows as [|v r]; [contradiction|].
    pose proof (fold_max_ge r v x) as Hge.
    assert (Hcase : x = v \/ In x r) by (destruct Hx as [-> | H]; auto).
    specialize (Hge Hcase). lia. }
  unfold migrateToV2, add_column, migrateToV1, updateSchemaVersion.
  cbn [documents_added schema_version].
  destruct (documents_added db) as [cols|] eqn:Ec.
  - destruct (has_column (lit "package_name") (base_columns ++ cols));
      [discriminate|].
    cbn [documents_added schema_version].
    destruct (has_column (lit "package_version")
                (base_columns ++ cols ++ [lit "package_name"]));
      [discriminate|].
    cbn [documents_added schema_version].
    destruct (schema_version db) as [rows|] eqn:Es; simpl; intros _.
    + split; [rewrite <- app_assoc; reflexivity|].
      apply Hversion, (Hrows rows eq_refl).
    + split; [rewrite <- app_assoc; reflexivity | reflexivity].
  - change (has_column (lit "package_name") (base_columns ++ [])) with false.
    cbn iota. cbn [documents_added schema_version].
    change (has_column (lit "package_version")
              (base_columns ++ [] ++ [lit "package_name"])) with false.
    cbn iota. cbn [documents_added schema_version].
    destruct (schema_version db) as [rows|] eqn:Es; simpl; intros _.
    + split; [reflexivity|]. apply Hversion, (Hrows rows eq_refl).
    + split; reflexivity.
Qed.

End MigrationFacts.

(** ** The tool handlers *)

Section ToolFacts.

Import Store Search Sections Words Tools.

Variable fts_match : jsstring -> option (DocumentRow -> option Q).
Variable fts_snippet : jsstring -> DocumentRow -> jsstring.
Variable load : jsstring -> node.
Variable unityVersion : jsstring.


Variable extractTitle : jsstring -> jsstring.
Variable extractContent : jsstring -> jsstring.
Variable extractCodeBlocks : jsstring -> list jsstring.
Variable extracted_file : jsstring -> option Pagination.readFile_result.

(** A page that is not in the table but is among the extracted files, in
    a file that can be read, can be read page by page, yet has no
    sections: the two section tools look in the table only and answer
    "not found". *)
Theorem sections_need_a_row (t : table) (path html : jsstring)
    (offset limit : Z) :
  get_by_path path (lit "6000.1") t = None ->
  extracted_file path = Some (Pagination.Fulfilled html) ->
  Pagination.read_unity_doc extractTitle extractContent extractCodeBlocks
    extracted_file unityVersion t path offset limit
  = Pagination.Shown
      (Pagination.file_header unityVersion
         (Parser.parse extractTitle extractContent html path))
      (Pagination.paginate (extractContent html) offset limit) []
  /\ list_unity_doc_sections load unityVersion t path
     = Text (lit "Documentation file not found: " ++ path)
  /\ forall section_id,
       read_unity_doc_section load unityVersion t path section_id
       = Text (lit "Documentation file not found: " ++ path).
Proof.
  intros Hrow Hfile.
  unfold Pagination.read_unity_doc, list_unity_doc_sections,
    read_unity_doc_section.
  rewrite Hrow, Hfile. repeat split.
Qed.

End ToolFacts.

(** ** When a run fails, and what the parser makes of a path *)

Section RunOutcome.

Import Store Indexer Trees.

Variable sha256_hex : jsstring -> jsstring.
Variable extractTitle : jsstring -> jsstring.
Variable extractContent : jsstring -> jsstring.
Variable now : jsstring.
Variable argv2 : option jsstring.

Lemma for_each_completed (A : Type) (body : A -> Run -> outcome)
    (ok : A -> bool) (l : list A) :
  Forall (fun a => forall st, completed (body a st) = ok a) l ->
  forall st, completed (for_each body l st) = forallb ok l.
Proof.
  induction 1 as [|a r Ha Hr IH]; intros st; simpl; [reflexivity|].
  rewrite <- (Ha st). destruct (body a st); simpl; [apply IH | reflexivity].
Qed.

Lemma process_entry_completed (e : entry) :
  forall prefix st,
    completed (process_entry sha256_hex extractTitle extractContent now argv2
                 prefix e st) = readable e.
Proof.
  induction e as [name data | name | name entries IH] using entry_induction;
    intros prefix st; simpl.
  - destruct (endsWith name (lit ".html")); reflexivity.
  - reflexivity.
  - apply for_each_completed.
    eapply Forall_impl; [|exact IH]. intros e He. apply He.
Qed.

(** A run ends in failure exactly when a directory below the documentation
    directory (or that directory itself) cannot be read, or the final
    optimisation of the index fails: no file, whatever happens to it,
    makes the run fail. *)
Theorem run_completes_iff (docs : option (list entry)) (optimize_ok : bool)
    (t : table) :
  snd (main sha256_hex extractTitle extractContent now argv2 docs optimize_ok t)
  = Completed
  <-> all_readable docs = true /\ optimize_ok = true.
Proof.
  unfold main.
  assert (H : forall st,
             completed (processDirectory sha256_hex extractTitle extractContent
                          now argv2 docs st) = all_readable docs).
  { intros st. destruct docs as [entries|]; simpl; [|reflexivity].
    apply for_each_completed. apply Forall_forall. intros e _.
    apply process_entry_completed. }
  specialize (H (mkRun (delete_version (version argv2) t) 0 0)).
  destruct (processDirectory _ _ _ _ _ _ _) as [st|st]; simpl in *;
    rewrite <- H.
  - destruct optimize_ok; simpl.
    + split; auto.
    + split; [discriminate | intros [_ E]; discriminate E].
  - split; [discriminate | intros [E _]; discriminate E].
Qed.

Lemma starts_with_tail (c : char) (pat s : jsstring) :
  starts_with (c :: pat) s = true ->
  exists s', s = c :: s' /\ starts_with pat s' = true.
Proof.
  destruct s as [|x s']; simpl; [discriminate|].
  unfold char_eqb. rewrite andb_true_iff, N.eqb_eq. intros [-> H].
  exists s'. auto.
Qed.

Lemma includes_here (s pat : jsstring) :
  starts_with pat s = true -> includes s pat = true.
Proof. intros H. destruct s; simpl in *; rewrite H; reflexivity. Qed.

Lemma includes_later (c : char) (s pat : jsstring) :
  includes s pat = true -> includes (c :: s) pat = true.
Proof. intros H. simpl. rewrite H. apply orb_true_r. Qed.

(** A string that includes a pattern includes the pattern without its
    first character. *)
Lemma includes_drop_first (c : char) (pat s : jsstring) :
  includes s (c :: pat) = true -> includes s pat = true.
Proof.
  induction s as [|x r IH].
  - simpl. rewrite orb_false_r. discriminate.
  - intros H.
    assert (Hcases : starts_with (c :: pat) (x :: r) = true
                     \/ includes r (c :: pat) = true).
    { simpl in H. apply orb_true_iff in H. exact H. }
    destruct Hcases as [Hs | Hr].
    + apply starts_with_tail in Hs. destruct Hs as [s' [Heq Hs']].
      injection Heq as _ <-. apply includes_later, includes_here, Hs'.
    + apply includes_later, IH, Hr.
Qed.

(** The parser takes a page for a script reference page exactly when its
    path includes [ScriptReference/] and does not include [Manual/]; every
    other page is a manual page. *)
Theorem detectDocumentType_cases (filePath : jsstring) :
  (Parser.detectDocumentType filePath = lit "script-reference"
   <-> includes filePath (lit "ScriptReference/") = true
       /\ includes filePath (lit "Manual/") = false)
  /\ (Parser.detectDocumentType filePath = lit "manual"
      <-> includes filePath (lit "ScriptReference/") = false
          \/ includes filePath (lit "Manual/") = true).
Proof.
  unfold Parser.detectDocumentType.
  assert (Hm : includes filePath (lit "/Manual/") = true ->
               includes filePath (lit "Manual/") = true)
    by apply includes_drop_first.
  assert (Hs : includes filePath (lit "/ScriptReference/") = true ->
               includes filePath (lit "ScriptReference/") = true)
    by apply includes_drop_first.
  destruct (includes filePath (lit "Manual/")) eqn:Em; simpl.
  { split; split; try discriminate; auto. intros [_ H]. discriminate H. }
  destruct (includes filePath (lit "/Manual/")) eqn:Em2;
    [specialize (Hm eq_refl); discriminate Hm|].
  destruct (includes filePath (lit "ScriptReference/")) eqn:Es; simpl.
  { split; split; try discriminate; auto. intros [H | H]; discriminate H. }
  destruct (includes filePath (lit "/ScriptReference/")) eqn:Es2;
    [specialize (Hs eq_refl); discriminate Hs|].
  split; split; try discriminate; auto. intros [H _]. discriminate H.
Qed.

End RunOutcome.

(** ** Instances *)

Import Store Search DocumentSearch Pagination Sections Indexer PackageIndexer.

(** The results of a search for [Rigidbody] among the manual pages are rows of the sample table, of version 6000.1. *)
Lemma search_results_are_rows_witness :
  let o := Samples.options "Rigidbody" (Some 5) (Some "manual"%string) in
  returned (search Samples.fts_match Samples.fts_snippet Samples.docs o)
  = Ok (MoreSamples.results_of o)
  /\ Forall (fun r => exists d, In d Samples.docs /\ r_id r = id d
                       /\ unity_version d = lit "6000.1")
       (MoreSamples.results_of o).
Proof.
  intros o. split; [reflexivity|].
  eapply Forall_impl;
    [|apply (search_results_are_rows Samples.fts_match Samples.fts_snippet
               Samples.docs o (MoreSamples.results_of o) eq_refl)].
  intros r [d [rank [x [Hin [Hr [_ [_ [Hv _]]]]]]]].
  exists d. rewrite Hr. simpl. auto.
Defined.

(** The three results of a search for [Rigidbody] come with scores that never increase. *)
Lemma search_best_first_witness :
  let o := Samples.options "Rigidbody" (Some 5) None in
  List.length (MoreSamples.results_of o) = 3%nat
  /\ StronglySorted (fun a b => (r_score b <= r_score a)%Q)
       (MoreSamples.results_of o).
Proof.
  intros o. split; [reflexivity|].
  apply (search_best_first Samples.fts_match Samples.fts_snippet
           Samples.docs o (MoreSamples.results_of o) eq_refl).
  intros q rank d x Hq Hd. unfold Samples.fts_match in Hq.
  injection Hq as <-.
  destruct (includes (content d) q); [|discriminate].
  injection Hd as <-. unfold Qle. simpl. lia.
Defined.

(** One result from offset 0, then two from offset 1, are the three from offset 0. *)
Lemma search_pages_compose_witness :
  let first := MoreSamples.results_of (MoreSamples.search_page 1 0) in
  let second := MoreSamples.results_of (MoreSamples.search_page 2 1) in
  List.length first = 1%nat /\ List.length second = 2%nat
  /\ returned (search Samples.fts_match Samples.fts_snippet Samples.docs
                 (MoreSamples.search_page 3 0))
     = Ok (first ++ second).
Proof.
  intros first second. split; [reflexivity|]. split; [reflexivity|].
  apply (search_pages_compose Samples.fts_match Samples.fts_snippet
           Samples.docs (MoreSamples.search_page 0 0) 1 2 0 first second);
    try lia; reflexivity.
Defined.

(** The documents similar to the sample manual page [a1]. *)
Lemma findSimilar_results_witness :
  let similar :=
    findSimilar Samples.fts_match Samples.fts_snippet Samples.docs (lit "a1") 5
  in
  Forall (fun r => r_id r <> lit "a1") similar
  /\ Z.of_nat (List.length similar) <= 5
  /\ Forall (fun r => r_type r = lit "manual") similar.
Proof.
  intros similar.
  assert (Htypes : Forall (fun r => type_check (type r) = true) Samples.docs)
    by (repeat constructor).
  destruct (findSimilar_results Samples.fts_match Samples.fts_snippet
              Samples.docs (lit "a1") 5 Htypes) as [H1 [H2 [_ H4]]].
  split; [exact H1|]. split; [apply H2; lia|].
  apply (H4 Samples.rigidbody_manual eq_refl).
Defined.

(** Inserting a page on colliders into the sample table. *)
Lemma insert_then_getDocument_witness :
  insert MoreSamples.collider_manual Samples.docs
  = Ok (Samples.docs ++ [MoreSamples.collider_manual])
  /\ getDocument (lit "z9") (Samples.docs ++ [MoreSamples.collider_manual])
     = Some MoreSamples.collider_manual
  /\ getDocument (lit "a1") (Samples.docs ++ [MoreSamples.collider_manual])
     = Some Samples.rigidbody_manual.
Proof.
  destruct (insert_then_getDocument MoreSamples.collider_manual Samples.docs
              (Samples.docs ++ [MoreSamples.collider_manual]) eq_refl)
    as [H1 [H2 _]].
  split; [reflexivity|]. split; [exact H1|].
  rewrite (H2 (lit "a1")); [reflexivity | discriminate].
Defined.

(** Replacing the sample manual page [a1]. *)
Lemma insert_or_replace_then_getDocument_witness :
  exists t',
    insert_or_replace MoreSamples.rigidbody_manual_v2 Samples.docs = Ok t'
    /\ getDocument (lit "a1") t' = Some MoreSamples.rigidbody_manual_v2
    /\ NoDup (ids t').
Proof.
  assert (Hnodup : NoDup (ids Samples.docs)) by nodup_literals.
  destruct (insert_or_replace_then_getDocument MoreSamples.rigidbody_manual_v2
              Samples.docs eq_refl Hnodup) as [t' [H1 [H2 [_ H4]]]].
  exists t'. auto.
Defined.

(** The last page and a full page of a content of 25 characters. *)
Lemma page_shape_witness :
  hasMore (paginate Samples.content25 20 10) = false
  /\ contentChunk (paginate Samples.content25 20 10) = lit "uvwxy"
  /\ hasMore (paginate Samples.content25 10 10) = true
  /\ Z.of_nat (List.length (contentChunk (paginate Samples.content25 10 10)))
     = 10.
Proof.
  assert (H20 : 0 <= 20) by lia. assert (H10 : 0 <= 10) by lia.
  destruct (page_shape Samples.content25 20 10 H20 H10) as [_ [Hlast _]].
  destruct (page_shape Samples.content25 10 10 H10 H10) as [Hfull _].
  split; [reflexivity|]. split; [rewrite Hlast; reflexivity|].
  split; [reflexivity | apply Hfull; reflexivity].
Defined.

(** A page of 10 and a page of 5 characters are the page of 15. *)
Lemma pages_compose_witness :
  contentChunk (paginate Samples.content25 0 10)
  ++ contentChunk (paginate Samples.content25 10 5)
  = lit "abcdefghijklmno".
Proof.
  assert (H0 : 0 <= 0) by lia. assert (H10 : 0 <= 10) by lia.
  assert (H5 : 0 <= 5) by lia.
  etransitivity;
    [exact (pages_compose Samples.content25 0 10 5 H0 H10 H5) | reflexivity].
Defined.

(** Three requests of 10 characters read 25 characters; two do not. *)
Lemma read_all_requests_witness :
  read_all 3 Samples.content25 0 10 = Some Samples.content25
  /\ read_all 2 Samples.content25 0 10 = None.
Proof.
  assert (Hl : 0 < 10) by lia.
  destruct (read_all_requests Samples.content25 10 3 Hl) as [[_ Hsome] _].
  destruct (read_all_requests Samples.content25 10 2 Hl) as [_ [_ Hnone]].
  split; [apply Hsome; simpl; lia | apply Hnone; right; simpl; lia].
Defined.

(** The sections of the sample page, and a request for a section it does not have. *)
Lemma read_unity_doc_section_lookup_witness :
  let sections :=
    extractSections (MoreSamples.load (html Samples.animator_manual)) in
  NoDup (List.map s_id sections)
  /\ Tools.read_unity_doc_section MoreSamples.load (lit "6000.1") Samples.docs
       (lit "Manual/class-Animator.html") (lit "section-9")
     = Tools.Text
         (lit "Section not found: section-9. Available sections: section-0, section-1, section-2").
Proof.
  intros sections.
  destruct (read_unity_doc_section_lookup MoreSamples.load (lit "6000.1")
              Samples.docs (lit "Manual/class-Animator.html")
              Samples.animator_manual eq_refl) as [_ [Hnodup [_ Hmissing]]].
  split; [exact Hnodup|].
  rewrite Hmissing; [reflexivity|].
  simpl. intros [H | [H | [H | []]]]; discriminate H.
Defined.

(** The sample archive: three pages processed, one error, four files. *)
Lemma completed_run_counts_witness :
  processDirectory Samples.digest Samples.extractTitle Samples.extractContent
    (lit "2025-01-01 10:00:00") None Samples.tree (mkRun [] 0 0)
  = Done MoreSamples.indexed_tree
  /\ processedCount MoreSamples.indexed_tree = 3
  /\ errorCount MoreSamples.indexed_tree = 1
  /\ processedCount MoreSamples.indexed_tree
     + errorCount MoreSamples.indexed_tree
     = Z.of_nat (List.length (findHtmlFiles Samples.tree)).
Proof.
  destruct (completed_run_counts Samples.digest Samples.extractTitle
              Samples.extractContent (lit "2025-01-01 10:00:00") None
              Samples.tree [] MoreSamples.indexed_tree eq_refl)
    as [_ [Hsum _]].
  split; [reflexivity|]. split; [reflexivity|]. split; [reflexivity|].
  exact Hsum.
Defined.

(** An extracted file that is not in the table. *)
Lemma sections_need_a_row_witness :
  MoreSamples.extracted_file (lit "Manual/Extra.html")
  = Some (Pagination.Fulfilled (lit "<h1>Extra</h1>"))
  /\ Tools.list_unity_doc_sections MoreSamples.load (lit "6000.1") Samples.docs
       (lit "Manual/Extra.html")
     = Tools.Text (lit "Documentation file not found: Manual/Extra.html")
  /\ contentChunk
       (paginate (Samples.extractContent (lit "<h1>Extra</h1>")) 0 2000)
     = lit "<h1>Extra</h1>".
Proof.
  destruct (sections_need_a_row MoreSamples.load (lit "6000.1")
              Samples.extractTitle Samples.extractContent
              Samples.extractCodeBlocks MoreSamples.extracted_file
              Samples.docs (lit "Manual/Extra.html") (lit "<h1>Extra</h1>")
              0 2000 eq_refl eq_refl) as [_ [Hlist _]].
  split; [reflexivity|]. split; [exact Hlist | reflexivity].
Defined.

(** A path that is a directory among the extracted files: [existsSync]
    finds it, [readFile] rejects, and the handler answers with the text of
    the error. *)
Example read_directory_fails :
  Pagination.render
    (read_unity_doc Samples.extractTitle Samples.extractContent
       Samples.extractCodeBlocks MoreSamples.extracted_file (lit "6000.1")
       Samples.docs (lit "Manual") 0 2000)
  = lit "Error: EISDIR: illegal operation on a directory, read".
Proof. reflexivity. Qed.

(** The migration of a database file that was just created. *)
Lemma migrate_adds_package_columns_witness :
  snd (Migration.migrate Migration.fresh) = true
  /\ Migration.documents_added (fst (Migration.migrate Migration.fresh))
     = Some [lit "package_name"; lit "package_version"]
  /\ Migration.getCurrentVersion (fst (Migration.migrate Migration.fresh)) = 1.
Proof.
  split; [reflexivity|].
  exact (migrate_adds_package_columns Migration.fresh eq_refl).
Defined.
